(** * Tank level monitor: volume engine and resilience loop

    A shallow embedding of [tank_profiles.py] and of the control loop of
    [mqtt_tank_monitor.py] (class [TankLevelMonitor]).

    Numbers.  Python floats are modelled by exact rationals ([Q]); the
    integer clock [time.time()] of MicroPython and the raw millimetre
    samples of the ranging sensor are [Z].  Equality of computed volumes
    and depths is therefore [Qeq] ([==]).

    Effects.  Every externally visible action of the monitor (watchdog
    feed, sleep, log line, broker publish, device reset) is an [event];
    a loop cycle is a function from the loop state and the answers of
    the environment during that cycle to the events it emits and to the
    next state, or to a halt when [machine.reset()] is reached. *)

From Stdlib Require Import ZArith QArith Qround List Bool Lia Lqa Sorted.
From Stdlib Require Ascii String.
Import ListNotations.

Open Scope Q_scope.

(* ================================================================= *)
(** * Part I: definitions *)
(* ================================================================= *)

(** ** tank_profiles.py *)

Module TankProfiles.

(** A tank profile dictionary; only the keys the code reads. *)
Record TankProfile : Type := mkProfile {
  capacity_gallons : Q;
  height_inches    : Q;
  depth_inches     : list Q;
  gallons          : list Q
}.

(** What a table conversion does: it returns a number, returns [None],
    or a subscript raises [IndexError]. *)
Inductive outcome : Type :=
| Value (v : Q)
| NoneValue
| IndexError.

Definition Qlt_bool (a b : Q) : bool := negb (Qle_bool b a).

(** [table[-1]] *)
Definition last_item (table : list Q) : option Q :=
  nth_error table (length table - 1).

(** [linear_interpolate(x, x0, x1, y0, y1)] *)
Definition linear_interpolate (x x0 x1 y0 y1 : Q) : Q :=
  if Qeq_bool x1 x0 then y0
  else y0 + (x - x0) * (y1 - y0) / (x1 - x0).

(** The body of [for i in range(len(xt) - 1): if x >= xt[i] and
    x <= xt[i + 1]: return linear_interpolate(x, xt[i], xt[i + 1],
    yt[i], yt[i + 1])], followed by [return None].  [idxs] is the
    remaining part of the range. *)
Fixpoint find_bracket (x : Q) (xt yt : list Q) (idxs : list nat) : outcome :=
  match idxs with
  | [] => NoneValue
  | i :: rest =>
      match nth_error xt i with
      | None => IndexError
      | Some x0 =>
          if Qle_bool x0 x then
            match nth_error xt (i + 1) with
            | None => IndexError
            | Some x1 =>
                if Qle_bool x x1 then
                  match nth_error yt i, nth_error yt (i + 1) with
                  | Some y0, Some y1 => Value (linear_interpolate x x0 x1 y0 y1)
                  | _, _ => IndexError
                  end
                else find_bracket x xt yt rest
            end
          else find_bracket x xt yt rest
      end
  end.

(** [range(len(table) - 1)] *)
Definition bracket_range (table : list Q) : list nat :=
  seq 0 (length table - 1).

(** [depth_to_gallons(depth_inches, tank_profile)] *)
Definition depth_to_gallons (depth : Q) (tank_profile : TankProfile) : outcome :=
  let depth_table := depth_inches tank_profile in
  let gallons_table := gallons tank_profile in
  if Qle_bool depth 0 then Value 0
  else
    match last_item depth_table with
    | None => IndexError
    | Some dmax =>
        if Qle_bool dmax depth then
          match last_item gallons_table with
          | None => IndexError
          | Some gmax => Value gmax
          end
        else find_bracket depth depth_table gallons_table
                          (bracket_range depth_table)
    end.

(** [gallons_to_depth(gallons, tank_profile)] *)
Definition gallons_to_depth (gal : Q) (tank_profile : TankProfile) : outcome :=
  let depth_table := depth_inches tank_profile in
  let gallons_table := gallons tank_profile in
  if Qle_bool gal 0 then Value 0
  else
    match last_item gallons_table with
    | None => IndexError
    | Some gmax =>
        if Qle_bool gmax gal then
          match last_item depth_table with
          | None => IndexError
          | Some dmax => Value dmax
          end
        else find_bracket gal gallons_table depth_table
                          (bracket_range gallons_table)
    end.

Definition ints (l : list Z) : list Q := map inject_Z l.

(** [TANK_275_VERTICAL_OVAL] *)
Definition TANK_275_VERTICAL_OVAL : TankProfile := {|
  capacity_gallons := 275;
  height_inches := 44;
  depth_inches := ints
    [ 1;  2;  3;  4;  5;  6;  7;  8;  9; 10;
     11; 12; 13; 14; 15; 16; 17; 18; 19; 20;
     21; 22; 23; 24; 25; 26; 27; 28; 29; 30;
     31; 32; 33; 34; 35; 36; 37; 38; 39; 40;
     41; 42; 43; 44]%Z;
  gallons := ints
    [  2;   5;   9;  14;  19;  25;  31;  37;  44;  51;
      58;  65;  72;  80;  87;  94; 101; 108; 115; 123;
     130; 137; 144; 151; 158; 166; 173; 180; 187; 194;
     201; 209; 216; 223; 230; 236; 243; 249; 254; 260;
     265; 269; 272; 275]%Z
|}.

(** *** Well-formed profiles

    The volume profile of the data model: control points strictly
    increasing in depth, volumes that do not decrease, starting at or
    above zero, a curve that ends at the tank height, and two tables of
    one length with at least two points. *)

Fixpoint adjacent_b (rel : Q -> Q -> bool) (l : list Q) : bool :=
  match l with
  | a :: (b :: _) as tl => rel a b && adjacent_b rel tl
  | _ => true
  end.

Definition strictly_ascending_b (l : list Q) : bool := adjacent_b Qlt_bool l.
Definition non_decreasing_b (l : list Q) : bool := adjacent_b Qle_bool l.

Definition head_nonneg_b (l : list Q) : bool :=
  match l with
  | a :: _ => Qle_bool 0 a
  | [] => false
  end.

Definition ends_at_b (l : list Q) (h : Q) : bool :=
  match last_item l with
  | Some d => Qeq_bool d h
  | None => false
  end.

Definition well_formed_b (p : TankProfile) : bool :=
  Nat.eqb (length (depth_inches p)) (length (gallons p))
  && Nat.leb 2 (length (depth_inches p))
  && strictly_ascending_b (depth_inches p)
  && non_decreasing_b (gallons p)
  && head_nonneg_b (depth_inches p)
  && head_nonneg_b (gallons p)
  && ends_at_b (depth_inches p) (height_inches p).

(** The same conditions as propositions on the table entries. *)
Record well_formed (p : TankProfile) : Prop := {
  wf_length : length (depth_inches p) = length (gallons p);
  wf_points : (2 <= length (depth_inches p))%nat;
  wf_depths : strictly_ascending_b (depth_inches p) = true;
  wf_volumes : non_decreasing_b (gallons p) = true;
  wf_depth0 : forall d, nth_error (depth_inches p) 0 = Some d -> 0 <= d;
  wf_volume0 : forall g, nth_error (gallons p) 0 = Some g -> 0 <= g;
  wf_height : forall d, last_item (depth_inches p) = Some d -> d == height_inches p
}.

(** The three ways in which [depth_to_gallons] gives a depth a volume:
    zero at or below depth zero, the last volume at or above the last
    depth, an interpolation on an interval of the table. *)
Inductive volume_at (p : TankProfile) (d v : Q) : Prop :=
| at_or_below_zero : d <= 0 -> v == 0 -> volume_at p d v
| at_or_above_last dmax :
    last_item (depth_inches p) = Some dmax -> 0 < d -> dmax <= d ->
    last_item (gallons p) = Some v -> volume_at p d v
| on_interval i x0 x1 y0 y1 :
    nth_error (depth_inches p) i = Some x0 ->
    nth_error (depth_inches p) (S i) = Some x1 ->
    nth_error (gallons p) i = Some y0 ->
    nth_error (gallons p) (S i) = Some y1 ->
    0 < d -> x0 <= d -> d <= x1 ->
    v = linear_interpolate d x0 x1 y0 y1 -> volume_at p d v.

End TankProfiles.

Import TankProfiles.

(** ** mqtt_tank_monitor.py *)

Module TankMonitor.

(** Module constants. *)
Definition SENSOR_MIN_READING_MM : Z := 0.
Definition SENSOR_MAX_READING_MM : Z := 8000.
Definition MM_TO_INCHES : Q := 254 # 10.
Definition MAX_CONSECUTIVE_FAILURES : Z := 10.
Definition RESTART_COOLDOWN_SEC : Z := 60.

(** [self.config.get_tank_config()] *)
Record TankConfig : Type := mkTank {
  height             : Q;
  calibration_offset : Q;
  empty_level        : Q
}.

(** [self.config.get_intervals()]; the loop reads two of the keys. *)
Record Intervals : Type := mkIntervals {
  measurement : Q;
  publish     : Q
}.

(** One transaction [self.sensor.read()]: an integer distance in
    millimetres, [None], or an exception of the driver. *)
Inductive sensor_read : Type :=
| SensorValue (mm : Z)
| SensorNone
| SensorRaises.

(** The response dictionary of [read_tank_level]; the key [gallons]
    is present only when a volume was computed. *)
Record Reading : Type := mkReading {
  distance_mm      : Q;
  distance_inches  : Q;
  level_inches     : Q;
  level_percentage : Q;
  timestamp        : Z;
  reading_gallons  : option Q
}.

(** Console lines of the code that matter to the fault policy. *)
Inductive message : Type :=
| SensorReturnedNone
| InvalidSensorReading (mm : Z)
| SensorReadError
| Level (r : Reading)
| Published (r : Reading)
| MqttPublishError
| SensorReadFailed (failures : Z)
| CooldownActive (wait_time : Z)
| TooManyConsecutiveFailures
| TooManySensorFailures
| ShutdownRequested
| CalibrationReading (mm : Z)
| InvalidCalibrationReading
| CalibrationReadError
| TooFewValidReadings
| CalibrationSaved
| CalibrationSaveFailed.

(** Externally visible actions.  [WifiCheck] and [MqttInit] stand for
    a whole call of [check_wifi_connection()] and [init_mqtt()] with
    the value it returned. *)
Inductive event : Type :=
| Feed                          (* self.feed_watchdog() *)
| GcCollect                     (* gc.collect() *)
| Sleep (seconds : Q)           (* time.sleep(seconds) *)
| Log (m : message)             (* print(...) *)
| SensorRead (r : sensor_read)  (* self.sensor.read() *)
| WifiCheck (ok : bool)         (* self.check_wifi_connection() *)
| MqttInit (ok : bool)          (* self.init_mqtt() *)
| MqttPublish (r : Reading)     (* self.mqtt.publish(state_topic, ...) returned *)
| MachineReset.                 (* machine.reset() *)

(** Python's two-argument [min] and [max]. *)
Definition py_min (a b : Q) : Q := if Qlt_bool b a then b else a.
Definition py_max (a b : Q) : Q := if Qlt_bool a b then b else a.

(** [round(x, ndigits)] on exact rationals: nearest multiple of
    [10^-ndigits], ties to the even one. *)
Definition round_half_even (x : Q) : Z :=
  let f := Qfloor x in
  let r := x - inject_Z f in
  if Qlt_bool r (1 # 2) then f
  else if Qlt_bool (1 # 2) r then (f + 1)%Z
  else if Z.even f then f else (f + 1)%Z.

Definition py_round (x : Q) (ndigits : nat) : Q :=
  let s := inject_Z (10 ^ Z.of_nat ndigits) in
  inject_Z (round_half_even (x * s)) / s.

(** The range test of [read_tank_level]:
    [distance_mm <= SENSOR_MIN_READING_MM or
     distance_mm > SENSOR_MAX_READING_MM]. *)
Definition out_of_range (mm : Z) : bool :=
  (mm <=? SENSOR_MIN_READING_MM)%Z || (SENSOR_MAX_READING_MM <? mm)%Z.

(** [read_tank_level()].  [now] is the [time.time()] of the timestamp.
    Every exception inside the [try] ends in the handler that prints
    "Sensor read error" and returns [None]. *)
Definition read_tank_level (cfg : TankConfig) (tank_profile : option TankProfile)
           (rd : sensor_read) (now : Z) : list event * option Reading :=
  let failed := fun m => ([Feed; SensorRead rd; Log m], @None Reading) in
  match rd with
  | SensorRaises => failed SensorReadError
  | SensorNone => failed SensorReturnedNone
  | SensorValue mm =>
      if out_of_range mm then failed (InvalidSensorReading mm)
      else
        let tank_height := height cfg in
        let dist_inches := inject_Z mm / MM_TO_INCHES in
        let liquid_depth := tank_height - dist_inches + calibration_offset cfg in
        let liquid_depth := py_max (empty_level cfg) (py_min liquid_depth tank_height) in
        let response := fun percentage gal =>
          ([Feed; SensorRead rd],
           Some {| distance_mm := py_round (inject_Z mm) 1;
                   distance_inches := py_round dist_inches 2;
                   level_inches := py_round liquid_depth 2;
                   level_percentage := py_round percentage 1;
                   timestamp := now;
                   reading_gallons := option_map (fun g => py_round g 1) gal |}) in
        match tank_profile with
        | Some profile =>
            match depth_to_gallons liquid_depth profile with
            | IndexError => failed SensorReadError
            | Value gal =>
                let tank_capacity := capacity_gallons profile in
                if Qlt_bool 0 tank_capacity
                then response (gal / tank_capacity * 100) (Some gal)
                else response 0 (Some gal)
            | NoneValue =>
                let tank_capacity := capacity_gallons profile in
                if Qlt_bool 0 tank_capacity
                then failed SensorReadError   (* None / tank_capacity: TypeError *)
                else response 0 None
            end
        | None =>
            if Qlt_bool 0 tank_height
            then response (liquid_depth / tank_height * 100) None
            else response 0 None
        end
  end.

(** What the broker session does when [publish_data] is called: there
    is no client ([not self.mqtt]), something inside the [try] raises,
    or [self.mqtt.publish] returns. *)
Inductive mqtt_answer : Type :=
| NoClient
| PublishRaises
| PublishReturns.

(** [publish_data(reading)] for a reading that is not [None]. *)
Definition publish_data (reading : Reading) (a : mqtt_answer) : list event * bool :=
  match a with
  | NoClient => ([], false)
  | PublishRaises => ([Feed; Log MqttPublishError], false)
  | PublishReturns => ([Feed; MqttPublish reading; Log (Published reading); Feed], true)
  end.

(** Local variables of [monitor_loop] and the attribute
    [self.last_publish]. *)
Record LoopState : Type := mkLoop {
  consecutive_failures : Z;
  last_restart_time    : Z;
  last_publish         : Z
}.

(** [consecutive_failures = 0], [last_restart_time = 0] at the top of
    [monitor_loop]; [self.last_publish = 0] from [__init__]. *)
Definition initial_state : LoopState :=
  {| consecutive_failures := 0; last_restart_time := 0; last_publish := 0 |}.

(** The answers of the environment during one iteration. *)
Record CycleEnv : Type := mkEnv {
  shutdown_requested : bool;       (* self.shutdown_requested *)
  wifi_ok            : bool;       (* self.check_wifi_connection() *)
  sensor             : sensor_read; (* self.sensor.read() *)
  stamp              : Z;          (* time.time() inside read_tank_level *)
  clock              : Z;          (* time.time() inside monitor_loop *)
  first_publish      : mqtt_answer;
  mqtt_reinit_ok     : bool;       (* self.init_mqtt() after a failed publish *)
  second_publish     : mqtt_answer
}.

Inductive cycle_result : Type :=
| Continue (st : LoopState)   (* the iteration ended in time.sleep(measurement_interval) *)
| DeviceReset                 (* machine.reset() was called *)
| LoopExit.                   (* break *)

(** The block that both failure paths of [monitor_loop] run once
    [consecutive_failures >= MAX_CONSECUTIVE_FAILURES]. *)
Definition restart_with_cooldown (current_time last_restart : Z) (final : message)
  : list event :=
  let time_since_last_restart := (current_time - last_restart)%Z in
  (if (time_since_last_restart <? RESTART_COOLDOWN_SEC)%Z then
     let wait_time := (RESTART_COOLDOWN_SEC - time_since_last_restart)%Z in
     [Log (CooldownActive wait_time); Sleep (inject_Z wait_time)]
   else [])
  ++ [Log final; MachineReset].

(** The publish gate of [monitor_loop]: the events and the new
    [self.last_publish]. *)
Definition publish_if_due (iv : Intervals) (env : CycleEnv) (st : LoopState)
           (reading : Reading) : list event * Z :=
  let current_time := clock env in
  if Qle_bool (publish iv) (inject_Z (current_time - last_publish st)) then
    let (e1, ok1) := publish_data reading (first_publish env) in
    if ok1 then (e1, current_time)
    else if mqtt_reinit_ok env then
      let (e2, ok2) := publish_data reading (second_publish env) in
      (e1 ++ [MqttInit true] ++ e2,
       if ok2 then current_time else last_publish st)
    else (e1 ++ [MqttInit false], last_publish st)
  else ([], last_publish st).

(** One iteration of [while True:] in [monitor_loop]. *)
Definition cycle (cfg : TankConfig) (iv : Intervals) (tank_profile : option TankProfile)
           (env : CycleEnv) (st : LoopState) : list event * cycle_result :=
  if shutdown_requested env then ([Log ShutdownRequested], LoopExit)
  else
    let top := [Feed; GcCollect; WifiCheck (wifi_ok env)] in
    if negb (wifi_ok env) then
      let failures := (consecutive_failures st + 1)%Z in
      if (MAX_CONSECUTIVE_FAILURES <=? failures)%Z then
        (top ++ restart_with_cooldown (clock env) (last_restart_time st)
                                      TooManyConsecutiveFailures,
         DeviceReset)
      else
        (top ++ [Sleep (measurement iv)],
         Continue {| consecutive_failures := failures;
                     last_restart_time := last_restart_time st;
                     last_publish := last_publish st |})
    else
      let (read_events, reading) :=
        read_tank_level cfg tank_profile (sensor env) (stamp env) in
      match reading with
      | Some r =>
          let (publish_events, published_at) := publish_if_due iv env st r in
          (top ++ read_events ++ [Log (Level r)] ++ publish_events
               ++ [Feed; Sleep (measurement iv)],
           Continue {| consecutive_failures := 0;
                       last_restart_time := last_restart_time st;
                       last_publish := published_at |})
      | None =>
          let failures := (consecutive_failures st + 1)%Z in
          if (MAX_CONSECUTIVE_FAILURES <=? failures)%Z then
            (top ++ read_events ++ [Log (SensorReadFailed failures)]
                 ++ restart_with_cooldown (clock env) (last_restart_time st)
                                          TooManySensorFailures,
             DeviceReset)
          else
            (top ++ read_events ++ [Log (SensorReadFailed failures)]
                 ++ [Feed; Sleep (measurement iv)],
             Continue {| consecutive_failures := failures;
                         last_restart_time := last_restart_time st;
                         last_publish := last_publish st |})
      end.

(** The loop over the iterations the environment answers for. *)
Fixpoint monitor_loop_from (cfg : TankConfig) (iv : Intervals)
         (tank_profile : option TankProfile) (envs : list CycleEnv) (st : LoopState)
  : list event * cycle_result :=
  match envs with
  | [] => ([], Continue st)
  | env :: rest =>
      match cycle cfg iv tank_profile env st with
      | (events, Continue st') =>
          let (events', result) := monitor_loop_from cfg iv tank_profile rest st' in
          (events ++ events', result)
      | stopped => stopped
      end
  end.

Definition monitor_loop cfg iv tank_profile envs :=
  monitor_loop_from cfg iv tank_profile envs initial_state.

(** *** Calibration *)

(** The tank section of the configuration: the dictionary in memory
    ([self.config.config]) and the one in [config/config.json]. *)
Record ConfigStore : Type := mkStore {
  loaded : TankConfig;
  saved  : TankConfig
}.

(** [distance is not None and distance > 0] *)
Definition calibration_sample (rd : sensor_read) : list Z :=
  match rd with
  | SensorValue d => if (0 <? d)%Z then [d] else []
  | _ => []
  end.

(** One pass through the body of the measurement loop of
    [calibrate_empty]. *)
Definition calibration_step (rd : sensor_read) : list event :=
  match rd with
  | SensorRaises => [Feed; SensorRead rd; Log CalibrationReadError]
  | SensorValue d =>
      if (0 <? d)%Z
      then [Feed; SensorRead rd; Log (CalibrationReading d); Sleep 1]
      else [Feed; SensorRead rd; Log InvalidCalibrationReading; Sleep 1]
  | SensorNone => [Feed; SensorRead rd; Log InvalidCalibrationReading; Sleep 1]
  end.

Inductive calibration_result : Type :=
| Returned (b : bool)
| ZeroDivisionError.     (* sum(readings) / len(readings) with no reading *)

(** [self.config.update_calibration_offset(offset)]: the offset in
    memory is replaced, then the file is written; [save_ok] tells
    whether the write went through. *)
Definition update_calibration_offset (offset : Q) (save_ok : bool)
           (store : ConfigStore) : bool * ConfigStore :=
  let updated := {| height := height (loaded store);
                    calibration_offset := offset;
                    empty_level := empty_level (loaded store) |} in
  if save_ok
  then (true, {| loaded := updated; saved := updated |})
  else (false, {| loaded := updated; saved := saved store |}).

(** The list [readings] after [for i in range(num_readings)];
    [sensor_at i] is what the sensor does at iteration [i]. *)
Definition collect_readings (num_readings : Z) (sensor_at : nat -> sensor_read)
  : list Z :=
  flat_map (fun i => calibration_sample (sensor_at i))
           (seq 0 (Z.to_nat num_readings)).

(** [calibrate_empty(num_readings)] *)
Definition calibrate_empty (num_readings : Z) (sensor_at : nat -> sensor_read)
           (save_ok : bool) (store : ConfigStore)
  : list event * calibration_result * ConfigStore :=
  let events := flat_map (fun i => calibration_step (sensor_at i))
                         (seq 0 (Z.to_nat num_readings)) in
  let readings := collect_readings num_readings sensor_at in
  let count := Z.of_nat (length readings) in
  if (count <? num_readings / 2)%Z then
    (events ++ [Log TooFewValidReadings], Returned false, store)
  else if (count =? 0)%Z then (events, ZeroDivisionError, store)
  else
    let avg_distance_mm := inject_Z (fold_right Z.add 0%Z readings) / inject_Z count in
    let avg_distance_inches := avg_distance_mm / (254 # 10) in
    let tank_height := height (loaded store) in
    let offset := tank_height - avg_distance_inches in
    let (ok, store') := update_calibration_offset offset save_ok store in
    (events ++ [Log (if ok then CalibrationSaved else CalibrationSaveFailed)],
     Returned ok, store').

(** *** Observations on cycles and traces *)

Definition reading_of cfg tank_profile (env : CycleEnv) : option Reading :=
  snd (read_tank_level cfg tank_profile (sensor env) (stamp env)).

Definition is_some {A} (o : option A) : bool :=
  match o with Some _ => true | None => false end.

(** A cycle fails when the connectivity check fails or no reading
    comes back; it succeeds when a reading does. *)
Definition cycle_succeeds cfg tank_profile (env : CycleEnv) : bool :=
  negb (shutdown_requested env) && wifi_ok env
  && is_some (reading_of cfg tank_profile env).

Definition cycle_fails cfg tank_profile (env : CycleEnv) : bool :=
  negb (shutdown_requested env)
  && (negb (wifi_ok env) || negb (is_some (reading_of cfg tank_profile env))).

(** The failure counter the loop continues with, if it continues. *)
Definition counter_after (r : cycle_result) : option Z :=
  match r with
  | Continue st => Some (consecutive_failures st)
  | _ => None
  end.

Definition is_publish (e : event) : bool :=
  match e with MqttPublish _ => true | _ => false end.
Definition is_sensor_read (e : event) : bool :=
  match e with SensorRead _ => true | _ => false end.
Definition is_feed (e : event) : bool :=
  match e with Feed => true | _ => false end.
Definition is_reset (e : event) : bool :=
  match e with MachineReset => true | _ => false end.

Definition count (f : event -> bool) (events : list event) : nat :=
  length (filter f events).

End TankMonitor.

Import TankMonitor.

(** ** The fault counters in the words of the specification

    Two counters, one per failure domain, each starting at 0; a success
    in a domain resets that domain's counter, a failure increments it.
    The sensor is not read in a cycle whose connectivity check fails, so
    the sensor domain has no outcome in such a cycle. *)

Module FaultPolicySpec.

Inductive domain_outcome : Type := Success | Failure.

Record FaultCounters : Type := mkCounters {
  sensor_failures       : Z;
  connectivity_failures : Z
}.

Definition account (counter : Z) (o : option domain_outcome) : Z :=
  match o with
  | Some Success => 0%Z
  | Some Failure => (counter + 1)%Z
  | None => counter
  end.

Definition connectivity_outcome (env : CycleEnv) : option domain_outcome :=
  Some (if wifi_ok env then Success else Failure).

Definition sensor_outcome cfg tank_profile (env : CycleEnv) : option domain_outcome :=
  if wifi_ok env
  then Some (if is_some (reading_of cfg tank_profile env) then Success else Failure)
  else None.

Definition observe cfg tank_profile (fc : FaultCounters) (env : CycleEnv) : FaultCounters :=
  {| sensor_failures := account (sensor_failures fc) (sensor_outcome cfg tank_profile env);
     connectivity_failures := account (connectivity_failures fc) (connectivity_outcome env) |}.

Definition fault_counters cfg tank_profile (envs : list CycleEnv) : FaultCounters :=
  fold_left (observe cfg tank_profile) envs
            {| sensor_failures := 0; connectivity_failures := 0 |}.

(** Two projections of the loop state behave as the two counters do. *)
Definition independent_counters cfg iv tank_profile
           (sensor_counter connectivity_counter : LoopState -> Z) : Prop :=
  sensor_counter initial_state = 0%Z
  /\ connectivity_counter initial_state = 0%Z
  /\ forall env st st',
      snd (cycle cfg iv tank_profile env st) = Continue st' ->
      sensor_counter st' =
        account (sensor_counter st) (sensor_outcome cfg tank_profile env)
      /\ connectivity_counter st' =
        account (connectivity_counter st) (connectivity_outcome env).

End FaultPolicySpec.

Import FaultPolicySpec.

(** ** Sample configurations and environments *)

Definition reference_tank : TankConfig :=
  {| height := 44; calibration_offset := 0; empty_level := 0 |}.

Definition reference_intervals : Intervals :=
  {| measurement := 5; publish := 30 |}.

(** The state the loop is in after nine failed cycles. *)
Definition nine_failures : LoopState :=
  {| consecutive_failures := 9; last_restart_time := 0; last_publish := 0 |}.

(** A stored configuration and a sensor that answers four times out of
    ten. *)
Definition reference_store : ConfigStore :=
  {| loaded := reference_tank; saved := reference_tank |}.

Definition four_answers (i : nat) : sensor_read :=
  if Nat.ltb i 4 then SensorValue 1100 else SensorNone.

(** A cycle in which the connectivity check fails. *)
Definition wifi_down (t : Z) : CycleEnv :=
  {| shutdown_requested := false; wifi_ok := false; sensor := SensorNone;
     stamp := t; clock := t; first_publish := PublishReturns;
     mqtt_reinit_ok := true; second_publish := PublishReturns |}.

(** A configuration whose empty-level floor is half an inch. *)
Definition raised_floor_tank : TankConfig :=
  {| height := 44; calibration_offset := 0; empty_level := 1 # 2 |}.

(** A cycle in which the link is up and the sensor answers [rd]. *)
Definition sensing (rd : sensor_read) (a : mqtt_answer) (t : Z) : CycleEnv :=
  {| shutdown_requested := false; wifi_ok := true; sensor := rd;
     stamp := t; clock := t; first_publish := a;
     mqtt_reinit_ok := false; second_publish := a |}.

(** Steady operation with the reference intervals: the link is up, the
    sensor answers [mm], the broker takes every message, and a cycle
    lasts the measurement interval of five seconds.  A window is six
    consecutive cycles, thirty seconds. *)
Definition steady_window (mm : Z) (t0 : Z) : list CycleEnv :=
  map (fun k => sensing (SensorValue mm) PublishReturns (t0 + 5 * Z.of_nat k))
      (seq 0 6).

Fixpoint steady_windows (mm : Z) (t0 : Z) (windows : nat) : list CycleEnv :=
  match windows with
  | O => []
  | S w => steady_window mm t0 ++ steady_windows mm (t0 + 30) w
  end.

(** Whether the broker takes the reading in a cycle that tries to
    publish: at the first call of [publish_data], or at the second one
    after [init_mqtt()] succeeded. *)
Definition broker_takes (env : CycleEnv) : bool :=
  match first_publish env with
  | PublishReturns => true
  | _ =>
      mqtt_reinit_ok env
      && match second_publish env with PublishReturns => true | _ => false end
  end.

Definition publish_due (iv : Intervals) (env : CycleEnv) (st : LoopState) : bool :=
  Qle_bool (publish iv) (inject_Z (clock env - last_publish st)).

(** ** Further definitions for mqtt_tank_monitor.py *)

(** The depth of [read_tank_level] before and after it is constrained:
    [tank_height - distance_inches + calibration_offset], then
    [max(empty_level, min(liquid_depth, tank_height))]. *)
Definition raw_depth (cfg : TankConfig) (mm : Z) : Q :=
  height cfg - inject_Z mm / MM_TO_INCHES + calibration_offset cfg.

Definition liquid_depth_of (cfg : TankConfig) (mm : Z) : Q :=
  py_max (empty_level cfg) (py_min (raw_depth cfg mm) (height cfg)).

(** What [read_tank_level] asks of a configuration and a profile for
    the percentage to stay on the scale: in linear mode a floor between
    zero and the height; with a profile, well-formed tables whose last
    volume is at most [capacity_gallons]. *)
Definition on_scale (cfg : TankConfig) (tank_profile : option TankProfile) : bool :=
  match tank_profile with
  | None => Qle_bool 0 (empty_level cfg) && Qle_bool (empty_level cfg) (height cfg)
  | Some p =>
      well_formed_b p
      && match last_item (gallons p) with
         | Some gmax => Qle_bool gmax (capacity_gallons p)
         | None => false
         end
  end.

(** The clocks of the cycles of a run in which a message reached the
    broker, in the order of the cycles. *)
Fixpoint publish_clocks (cfg : TankConfig) (iv : Intervals)
         (tank_profile : option TankProfile) (envs : list CycleEnv) (st : LoopState)
  : list Z :=
  match envs with
  | [] => []
  | env :: rest =>
      match cycle cfg iv tank_profile env st with
      | (events, Continue st') =>
          (if Nat.ltb 0 (count is_publish events) then [clock env] else [])
          ++ publish_clocks cfg iv tank_profile rest st'
      | _ => []
      end
  end.

(** Any two times of a list, the earlier before the later, are at least
    [gap] apart. *)
Definition spaced (gap : Q) (times : list Z) : Prop :=
  StronglySorted (fun a b => gap <= inject_Z (b - a)) times.

(** ** mqtt_tank_monitor.py: the network link *)

Module Connectivity.

(** What [connect_wifi] and [check_wifi_connection] do to the outside:
    [self.wifi.active(True)], a call of [self.wifi.isconnected()] with
    its answer, [self.wifi.connect(ssid, password)], [time.sleep],
    [self.feed_watchdog()], and a call of [self.init_mqtt()] with the
    value it returned.  Console lines are left out. *)
Inductive link_event : Type :=
| LinkActivate
| LinkPoll (connected : bool)
| LinkConnect
| LinkSleep (seconds : Z)
| LinkFeed
| LinkInitMqtt (ok : bool).

(** The link is an oracle: [link k] is the answer of call number [k]
    of [isconnected()].  Every function returns the number of the next
    call beside its result. *)

(** [while not self.wifi.isconnected() and timeout > 0:
       time.sleep(1); timeout -= 1; self.feed_watchdog()] *)
Fixpoint wait_for_link (link : nat -> bool) (calls : nat) (timeout : nat)
  : list link_event * nat :=
  if link calls then ([LinkPoll true], S calls)
  else
    match timeout with
    | O => ([LinkPoll false], S calls)
    | S t =>
        let (events, calls') := wait_for_link link (S calls) t in
        (LinkPoll false :: LinkSleep 1 :: LinkFeed :: events, calls')
    end.

(** [for attempt in range(max_retries):] of [connect_wifi], with the
    [return False] after it. *)
Fixpoint connect_attempts (link : nat -> bool) (calls : nat) (retries : nat)
  : list link_event * bool * nat :=
  match retries with
  | O => ([], false, calls)
  | S more =>
      if link calls then ([LinkPoll true], true, S calls)
      else
        let (waiting, calls1) := wait_for_link link (S calls) 30 in
        if link calls1 then
          (LinkPoll false :: LinkConnect :: waiting ++ [LinkPoll true; LinkFeed],
           true, S calls1)
        else
          let '(later, ok, calls2) := connect_attempts link (S calls1) more in
          (LinkPoll false :: LinkConnect :: waiting
             ++ [LinkPoll false; LinkSleep 5; LinkFeed] ++ later,
           ok, calls2)
  end.

(** [connect_wifi(max_retries)] *)
Definition connect_wifi (link : nat -> bool) (calls : nat) (max_retries : nat)
  : list link_event * bool * nat :=
  let '(events, ok, calls') := connect_attempts link calls max_retries in
  (LinkActivate :: LinkFeed :: events, ok, calls').

(** What a call of [check_wifi_connection] leaves behind: the events,
    the value returned, the new [self.last_wifi_check] and the number of
    the next call of [isconnected()]. *)
Record check_result : Type := mkCheck {
  check_events : list link_event;
  check_ok     : bool;
  check_last   : Z;
  check_calls  : nat
}.

(** [check_wifi_connection()]: [current_time] is [time.time()],
    [mqtt_ok] what [init_mqtt()] returns if it is called. *)
Definition check_wifi_connection (wifi_check_interval : Q)
           (current_time last_wifi_check : Z)
           (link : nat -> bool) (calls : nat) (mqtt_ok : bool) : check_result :=
  if Qlt_bool (inject_Z (current_time - last_wifi_check)) wifi_check_interval then
    mkCheck [] true last_wifi_check calls
  else if link calls then
    mkCheck [LinkFeed; LinkPoll true] true current_time (S calls)
  else
    let '(events, ok, calls') := connect_wifi link (S calls) 2 in
    if ok then
      mkCheck (LinkFeed :: LinkPoll false :: events ++ [LinkInitMqtt mqtt_ok])
              true current_time calls'
    else
      mkCheck (LinkFeed :: LinkPoll false :: events) false current_time calls'.

(** Observations on traces. *)

(** Every sleep lasts at most five seconds and is followed at once by a
    feed of the watchdog. *)
Fixpoint sleeps_are_fed (events : list link_event) : bool :=
  match events with
  | [] => true
  | LinkSleep s :: rest =>
      match rest with
      | LinkFeed :: _ => (s <=? 5)%Z && sleeps_are_fed rest
      | _ => false
      end
  | _ :: rest => sleeps_are_fed rest
  end.

Fixpoint slept (events : list link_event) : Z :=
  match events with
  | [] => 0
  | LinkSleep s :: rest => (s + slept rest)%Z
  | _ :: rest => slept rest
  end.

Fixpoint connects (events : list link_event) : nat :=
  match events with
  | [] => O
  | LinkConnect :: rest => S (connects rest)
  | _ :: rest => connects rest
  end.

Definition always_down (k : nat) : bool := false.
Definition always_up (k : nat) : bool := true.
(** A link that comes up at the call number 40. *)
Definition up_from_40 (k : nat) : bool := Nat.leb 40 k.

End Connectivity.

Import Connectivity.

(** ** mqtt_tank_monitor.py: alerts *)

Module Alerts.

(** The strings that [get_alerts] appends. *)
Inductive alert : Type :=
| low_level_alert      (* "low_level" *)
| high_level_alert     (* "high_level" *)
| empty_alert          (* "empty" *)
| full_alert.          (* "full" *)

(** [self.config.get_thresholds()] *)
Record Thresholds : Type := mkThresholds {
  low_level  : Q;
  high_level : Q
}.

(** [get_alerts(reading)], with the thresholds and the tank height it
    reads from the configuration. *)
Definition get_alerts (reading : Reading) (thresholds : Thresholds) (tank_height : Q)
  : list alert :=
  let percentage := level_percentage reading in
  let level := level_inches reading in
  (if Qlt_bool percentage (low_level thresholds) then [low_level_alert] else [])
  ++ (if Qlt_bool (high_level thresholds) percentage then [high_level_alert] else [])
  ++ (if Qle_bool level 0 then [empty_alert] else [])
  ++ (if Qle_bool (tank_height - 1) level then [full_alert] else []).

(** The defaults of [get_thresholds]. *)
Definition default_thresholds : Thresholds :=
  {| low_level := 10; high_level := 95 |}.

Definition alert_eqb (a b : alert) : bool :=
  match a, b with
  | low_level_alert, low_level_alert
  | high_level_alert, high_level_alert
  | empty_alert, empty_alert
  | full_alert, full_alert => true
  | _, _ => false
  end.

Definition has_alert (a : alert) (alerts : list alert) : bool :=
  existsb (alert_eqb a) alerts.

End Alerts.

Import Alerts.

(** ** config_manager.py *)

Module ConfigManager.

Import Ascii String.

(** Exceptions that leave the methods modelled here. *)
Inductive exception : Type :=
| ConfigError
| AttributeError
| ZeroDivisionError.

Inductive py (A : Type) : Type :=
| Ret (a : A)
| Raise (e : exception).
Arguments Ret {A} a.
Arguments Raise {A} e.

(** The scalar values of the configuration file.  A character is a
    byte: strings hold code points below 256. *)
Inductive value : Type :=
| VNull
| VBool (b : bool)
| VInt (z : Z)
| VFloat (q : Q)
| VStr (s : string).

(** A dictionary with string keys; the first entry of a key counts. *)
Definition dict (A : Type) : Type := list (string * A).

Fixpoint dict_get {A} (d : dict A) (k : string) : option A :=
  match d with
  | [] => None
  | (k', v) :: rest => if String.eqb k' k then Some v else dict_get rest k
  end.

(** [d[k] = v] *)
Fixpoint dict_set {A} (d : dict A) (k : string) (v : A) : dict A :=
  match d with
  | [] => [(k, v)]
  | (k', v') :: rest =>
      if String.eqb k' k then (k, v) :: rest else (k', v') :: dict_set rest k v
  end.

(** [self.config]: every section of the file is a JSON object of
    scalars, as [_validate_config] requires of the mandatory ones. *)
Definition section : Type := dict value.
Definition config : Type := dict section.

(** The truth value Python gives a scalar. *)
Definition truthy (v : value) : bool :=
  match v with
  | VNull => false
  | VBool b => b
  | VInt z => negb (z =? 0)%Z
  | VFloat q => negb (Qeq_bool q 0)
  | VStr s => negb (String.eqb s EmptyString)
  end.

(** The state of a [ConfigManager]: the dictionary in memory, the
    content of [config/config.json], and the hexlified MAC address of
    the device ([None] when it cannot be read). *)
Record Manager : Type := mkManager {
  loaded_config : config;
  file_config   : config;
  device_mac    : option string
}.

(** [get(section, key, default)] with a key. *)
Definition get (cfg : config) (sec key : string) (default : value) : py value :=
  match cfg with
  | [] => Raise ConfigError                    (* not self.config *)
  | _ =>
      match dict_get cfg sec with
      | None => Ret default                    (* {}.get(key, default) *)
      | Some fields =>
          Ret (match dict_get fields key with
               | Some v => v
               | None => default
               end)
      end
  end.


(** [_save_config()]: [save_ok] tells whether the file can be written. *)
Definition save_config (save_ok : bool) (m : Manager) : py unit * Manager :=
  if save_ok
  then (Ret tt, {| loaded_config := loaded_config m;
                   file_config := loaded_config m;
                   device_mac := device_mac m |})
  else (Raise ConfigError, m).

(** [update_calibration_offset(offset)] *)
Definition update_calibration_offset (offset : Q) (save_ok : bool) (m : Manager)
  : py unit * Manager :=
  match loaded_config m with
  | [] => (Raise ConfigError, m)
  | cfg =>
      let tank := match dict_get cfg "tank" with
                  | Some fields => fields
                  | None => []
                  end in
      let cfg' := dict_set cfg "tank"
                    (dict_set tank "calibration_offset" (VFloat offset)) in
      save_config save_ok {| loaded_config := cfg';
                             file_config := file_config m;
                             device_mac := device_mac m |}
  end.

(** *** Passwords *)

Definition xor_ascii (a b : ascii) : ascii :=
  match a, b with
  | Ascii a0 a1 a2 a3 a4 a5 a6 a7, Ascii b0 b1 b2 b3 b4 b5 b6 b7 =>
      Ascii (xorb a0 b0) (xorb a1 b1) (xorb a2 b2) (xorb a3 b3)
            (xorb a4 b4) (xorb a5 b5) (xorb a6 b6) (xorb a7 b7)
  end.

(** [for i, c in enumerate(data): c ^ ord(mac_key[i % len(mac_key)])],
    from the index [i] on. *)
Fixpoint xor_stream (key : list ascii) (i : nat) (data : list ascii) : list ascii :=
  match data with
  | [] => []
  | c :: rest =>
      xor_ascii c (nth (i mod List.length key) key Ascii.zero) :: xor_stream key (S i) rest
  end.

Definition prefix_tag : string := "mac_xor:".

(** [s[8:]] *)
Fixpoint drop (n : nat) (s : string) : string :=
  match n, s with
  | O, _ => s
  | S n', String _ rest => drop n' rest
  | S _, EmptyString => EmptyString
  end.

(** The two functions of [ubinascii] are parameters of the model:
    [b64encode bytes] stands for
    [ubinascii.b2a_base64(bytes).decode().strip()], [b64decode text] for
    [ubinascii.a2b_base64(text)], [None] when it raises. *)

(** [_encrypt_password(password)] *)
Definition encrypt_password (b64encode : list ascii -> string)
           (mac : option string) (password : string) : py string :=
  match password with
  | EmptyString => Ret EmptyString
  | _ =>
      match mac with
      | None => Raise ConfigError
      | Some EmptyString => Raise ZeroDivisionError
      | Some key =>
          Ret (prefix_tag
               ++ b64encode (xor_stream (list_ascii_of_string key) 0
                                        (list_ascii_of_string password)))%string
      end
  end.

(** [_decrypt_password(encrypted_value)] *)
Definition decrypt_password (b64decode : string -> option (list ascii))
           (mac : option string) (encrypted_value : value) : py string :=
  if negb (truthy encrypted_value) then Ret EmptyString
  else
    match encrypted_value with
    | VStr text =>
        if negb (String.prefix prefix_tag text) then Raise ConfigError
        else
          match mac with
          | None => Raise ConfigError
          | Some key =>
              match b64decode (drop 8 text) with
              | None => Raise ConfigError
              | Some [] => Ret EmptyString
              | Some bytes =>
                  match key with
                  | EmptyString => Raise ZeroDivisionError
                  | _ => Ret (string_of_list_ascii
                                (xor_stream (list_ascii_of_string key) 0 bytes))
                  end
              end
          end
    | _ => Raise AttributeError        (* no method startswith *)
    end.

(** One of the two blocks of [_migrate_plaintext_passwords]: the
    password of the section [sec] is encrypted when it is there, true
    and without the tag.  The result tells whether it was changed. *)
Definition migrate_section (b64encode : list ascii -> string)
           (mac : option string) (sec : string) (cfg : config)
  : py (config * bool) :=
  match dict_get cfg sec with
  | None => Ret (cfg, false)
  | Some fields =>
      match dict_get fields "password" with
      | None => Ret (cfg, false)
      | Some p =>
          if negb (truthy p) then Ret (cfg, false)
          else
            match p with
            | VStr plaintext =>
                if String.prefix prefix_tag plaintext then Ret (cfg, false)
                else
                  match encrypt_password b64encode mac plaintext with
                  | Raise e => Raise e
                  | Ret encrypted =>
                      Ret (dict_set cfg sec
                             (dict_set fields "password" (VStr encrypted)),
                           true)
                  end
            | _ => Raise AttributeError
            end
      end
  end.

(** [_migrate_plaintext_passwords()] *)
Definition migrate_plaintext_passwords (b64encode : list ascii -> string)
           (save_ok : bool) (m : Manager) : py unit * Manager :=
  match migrate_section b64encode (device_mac m) "wifi" (loaded_config m) with
  | Raise e => (Raise e, m)
  | Ret (cfg1, changed1) =>
      let m1 := {| loaded_config := cfg1; file_config := file_config m;
                   device_mac := device_mac m |} in
      match migrate_section b64encode (device_mac m) "mqtt" cfg1 with
      | Raise e => (Raise e, m1)
      | Ret (cfg2, changed2) =>
          let m2 := {| loaded_config := cfg2; file_config := file_config m;
                       device_mac := device_mac m |} in
          if changed1 || changed2 then save_config save_ok m2 else (Ret tt, m2)
      end
  end.

(** [get_wifi_config()]: the SSID and the decrypted password. *)
Definition get_wifi_config (b64decode : string -> option (list ascii))
           (m : Manager) : py (value * string) :=
  match get (loaded_config m) "wifi" "password" VNull with
  | Raise e => Raise e
  | Ret encrypted_password =>
      match get (loaded_config m) "wifi" "ssid" VNull with
      | Raise e => Raise e
      | Ret ssid =>
          match decrypt_password b64decode (device_mac m) encrypted_password with
          | Raise e => Raise e
          | Ret password => Ret (ssid, password)
          end
      end
  end.

(** A password is settled when the migration leaves it alone: it is
    empty or carries the tag. *)
Definition settled (p : string) : Prop :=
  p = EmptyString \/ String.prefix prefix_tag p = true.

(** A stand-in codec for examples: the bytes as they are. *)
Definition plain_encode (bytes : list ascii) : string := string_of_list_ascii bytes.
Definition plain_decode (text : string) : option (list ascii) :=
  Some (list_ascii_of_string text).

Definition sample_config : config :=
  [("wifi", [("ssid", VStr "cellar"); ("password", VStr "hunter2")]);
   ("mqtt", [("broker", VStr "broker.lan"); ("username", VStr "tank");
             ("password", VStr "mac_xor:abcd")]);
   ("tank", [("height", VInt 44)]);
   ("hardware", [("sda_pin", VInt 21); ("scl_pin", VInt 22)])]%string.

Definition sample_manager : Manager :=
  {| loaded_config := sample_config; file_config := sample_config;
     device_mac := Some "a0b1c2d3e4f5"%string |}.

End ConfigManager.

(** ** main.py and the constructor of TankLevelMonitor *)

Module Boot.

(** What reaches the hardware: a call of [wdt.feed()] and a call of
    [time.sleep]. *)
Inductive hw_event : Type :=
| HwFeed
| HwSleep (seconds : Z).

(** [feed_watchdog()] feeds the timer only if [self.wdt] is set: a
    trace of the link functions as the hardware sees it, with
    ([wdt = true]) or without a watchdog object. *)
Fixpoint on_hardware (wdt : bool) (events : list link_event) : list hw_event :=
  match events with
  | [] => []
  | LinkFeed :: rest => (if wdt then [HwFeed] else []) ++ on_hardware wdt rest
  | LinkSleep s :: rest => HwSleep s :: on_hardware wdt rest
  | _ :: rest => on_hardware wdt rest
  end.






(** [main_application()] as [safe_main] sees it. *)
Inductive app_outcome : Type :=
| ReturnsTrue
| ReturnsFalse
| KeyboardInterrupt
| RaisesException.





(** Observations on the traces of [safe_main]. *)

Definition failed (o : app_outcome) : bool :=
  match o with
  | ReturnsFalse | RaisesException => true
  | ReturnsTrue | KeyboardInterrupt => false
  end.







End Boot.

Import Boot.

(* ================================================================= *)
(** * Part II: properties *)
(* ================================================================= *)

(** ** Comparisons on rationals *)

Lemma Qlt_bool_iff (a b : Q) : Qlt_bool a b = true <-> a < b.
Proof.
  unfold Qlt_bool. rewrite negb_true_iff.
  destruct (Qle_bool b a) eqn:E.
  - apply Qle_bool_iff in E. split; [discriminate | intros H; lra].
  - split; [intros _ | reflexivity].
    apply Qnot_le_lt. intros H. apply Qle_bool_iff in H. congruence.
Qed.

Lemma Qle_bool_true (a b : Q) : a <= b -> Qle_bool a b = true.
Proof. apply Qle_bool_iff. Qed.

Lemma Qle_bool_false (a b : Q) : b < a -> Qle_bool a b = false.
Proof.
  intros H. destruct (Qle_bool a b) eqn:E; [| reflexivity].
  apply Qle_bool_iff in E. lra.
Qed.

Lemma Qeq_bool_false (a b : Q) : ~ a == b -> Qeq_bool a b = false.
Proof.
  intros H. destruct (Qeq_bool a b) eqn:E; [| reflexivity].
  apply Qeq_bool_iff in E. contradiction.
Qed.

(** ** Tables *)

Section Tables.

Variable rel_b : Q -> Q -> bool.
Variable rel : Q -> Q -> Prop.
Hypothesis rel_spec : forall a b, rel_b a b = true -> rel a b.
Hypothesis rel_trans : forall a b c, rel a b -> rel b c -> rel a c.

Lemma adjacent_step (l : list Q) :
  adjacent_b rel_b l = true ->
  forall i a b,
    nth_error l i = Some a -> nth_error l (S i) = Some b -> rel a b.
Proof.
  induction l as [| h t IH]; intros Hadj i a b Ha Hb.
  - destruct i; discriminate.
  - destruct t as [| h' t'].
    + destruct i; simpl in Hb; [discriminate | destruct i; discriminate].
    + simpl in Hadj. apply andb_true_iff in Hadj as [Hrel Hrest].
      destruct i as [| i].
      * simpl in Ha, Hb. inversion Ha; inversion Hb; subst. auto.
      * apply (IH Hrest i); assumption.
Qed.

Lemma adjacent_far (l : list Q) :
  adjacent_b rel_b l = true ->
  forall k i a b,
    nth_error l i = Some a -> nth_error l (i + S k) = Some b -> rel a b.
Proof.
  intros Hadj. induction k as [| k IH]; intros i a b Ha Hb.
  - replace (i + 1)%nat with (S i) in Hb by lia.
    eapply adjacent_step; eauto.
  - destruct (nth_error l (i + S k)) as [c |] eqn:Hc.
    + apply rel_trans with c.
      * eapply IH; eauto.
      * eapply adjacent_step; eauto.
        replace (S (i + S k)) with (i + S (S k))%nat by lia. exact Hb.
    + apply nth_error_None in Hc.
      assert (i + S (S k) < length l)%nat
        by (apply nth_error_Some; congruence).
      lia.
Qed.

End Tables.

Lemma ascending_nth (l : list Q) (i j : nat) (a b : Q) :
  strictly_ascending_b l = true -> (i < j)%nat ->
  nth_error l i = Some a -> nth_error l j = Some b -> a < b.
Proof.
  intros Hasc Hij Ha Hb.
  replace j with (i + S (j - i - 1))%nat in Hb by lia.
  eapply (adjacent_far Qlt_bool Qlt); eauto.
  - intros x y. apply Qlt_bool_iff.
  - intros x y z. apply Qlt_trans.
Qed.

Lemma non_decreasing_nth (l : list Q) (i j : nat) (a b : Q) :
  non_decreasing_b l = true -> (i <= j)%nat ->
  nth_error l i = Some a -> nth_error l j = Some b -> a <= b.
Proof.
  intros Hasc Hij Ha Hb.
  destruct (Nat.eq_dec i j) as [-> | Hne].
  - rewrite Ha in Hb. inversion Hb. apply Qle_refl.
  - replace j with (i + S (j - i - 1))%nat in Hb by lia.
    eapply (adjacent_far Qle_bool Qle); eauto.
    + intros x y. apply Qle_bool_iff.
    + intros x y z. apply Qle_trans.
Qed.

Lemma last_item_nth (l : list Q) (i : nat) (a : Q) :
  nth_error l i = Some a -> exists z, last_item l = Some z.
Proof.
  intros H. unfold last_item.
  assert (i < length l)%nat by (apply nth_error_Some; congruence).
  destruct (nth_error l (length l - 1)) as [z |] eqn:E; [eauto |].
  apply nth_error_None in E. lia.
Qed.

(** The loop returns at the first index whose interval holds [x]. *)
Lemma find_bracket_at (x : Q) (xt yt : list Q) (i : nat) (x0 x1 : Q) :
  nth_error xt i = Some x0 -> nth_error xt (i + 1) = Some x1 ->
  x0 <= x -> x <= x1 ->
  (forall j v, (j < i)%nat -> nth_error xt (j + 1) = Some v -> v < x) ->
  forall n a, (a <= i < a + n)%nat ->
  find_bracket x xt yt (seq a n) =
    match nth_error yt i, nth_error yt (i + 1) with
    | Some y0, Some y1 => Value (linear_interpolate x x0 x1 y0 y1)
    | _, _ => IndexError
    end.
Proof.
  intros Hx0 Hx1 Hlo Hhi Hbefore.
  induction n as [| n IH]; intros a Hrange; [lia |].
  simpl seq. simpl find_bracket.
  destruct (Nat.eq_dec a i) as [-> | Hne].
  - rewrite Hx0, (Qle_bool_true _ _ Hlo), Hx1, (Qle_bool_true _ _ Hhi).
    reflexivity.
  - assert (Ha : (a < i)%nat) by lia.
    destruct (nth_error xt a) as [u |] eqn:Hu.
    2:{ apply nth_error_None in Hu.
        assert (i < length xt)%nat by (apply nth_error_Some; congruence). lia. }
    destruct (nth_error xt (a + 1)) as [v |] eqn:Hv.
    2:{ apply nth_error_None in Hv.
        assert (i < length xt)%nat by (apply nth_error_Some; congruence). lia. }
    rewrite (Qle_bool_false x v (Hbefore a v Ha Hv)).
    destruct (Qle_bool u x); apply IH; lia.
Qed.

(** Below every table entry the loop runs to its end. *)
Lemma find_bracket_below (x : Q) (xt yt : list Q) :
  (forall j u, nth_error xt j = Some u -> x < u) ->
  forall n a, (a + n <= length xt)%nat ->
  find_bracket x xt yt (seq a n) = NoneValue.
Proof.
  intros Hbelow. induction n as [| n IH]; intros a Hrange; [reflexivity |].
  simpl. destruct (nth_error xt a) as [u |] eqn:Hu.
  - rewrite (Qle_bool_false u x (Hbelow a u Hu)). apply IH. lia.
  - apply nth_error_None in Hu. lia.
Qed.

(** ** Linear interpolation *)

Lemma linear_interpolate_eq (x x0 x1 y0 y1 : Q) :
  x0 < x1 ->
  linear_interpolate x x0 x1 y0 y1 == y0 + (x - x0) * (y1 - y0) / (x1 - x0).
Proof.
  intros H. unfold linear_interpolate.
  rewrite Qeq_bool_false by lra. reflexivity.
Qed.

Lemma slope_nonneg (a b c : Q) :
  0 <= a -> 0 <= b -> 0 < c -> 0 <= a * b / c.
Proof.
  intros Ha Hb Hc. unfold Qdiv.
  apply Qmult_le_0_compat.
  - apply Qmult_le_0_compat; assumption.
  - apply Qlt_le_weak, Qinv_lt_0_compat, Hc.
Qed.

Lemma slope_pos (a b c : Q) :
  0 < a -> 0 < b -> 0 < c -> 0 < a * b / c.
Proof.
  intros Ha Hb Hc. unfold Qdiv.
  apply Qmult_lt_0_compat.
  - apply Qmult_lt_0_compat; assumption.
  - apply Qinv_lt_0_compat, Hc.
Qed.

Lemma linear_interpolate_bounds (x x0 x1 y0 y1 : Q) :
  x0 < x1 -> y0 <= y1 -> x0 <= x -> x <= x1 ->
  y0 <= linear_interpolate x x0 x1 y0 y1 <= y1.
Proof.
  intros Hx Hy Hlo Hhi. rewrite linear_interpolate_eq by assumption.
  assert (H1 : 0 <= (x - x0) * (y1 - y0) / (x1 - x0))
    by (apply slope_nonneg; lra).
  assert (H2 : 0 <= (x1 - x) * (y1 - y0) / (x1 - x0))
    by (apply slope_nonneg; lra).
  assert (E : (x - x0) * (y1 - y0) / (x1 - x0)
              + (x1 - x) * (y1 - y0) / (x1 - x0) == y1 - y0)
    by (field; lra).
  lra.
Qed.

Lemma linear_interpolate_strict (x x0 x1 y0 y1 : Q) :
  x0 < x1 -> y0 < y1 -> x0 < x -> x < x1 ->
  y0 < linear_interpolate x x0 x1 y0 y1 < y1.
Proof.
  intros Hx Hy Hlo Hhi. rewrite linear_interpolate_eq by assumption.
  assert (H1 : 0 < (x - x0) * (y1 - y0) / (x1 - x0))
    by (apply slope_pos; lra).
  assert (H2 : 0 < (x1 - x) * (y1 - y0) / (x1 - x0))
    by (apply slope_pos; lra).
  assert (E : (x - x0) * (y1 - y0) / (x1 - x0)
              + (x1 - x) * (y1 - y0) / (x1 - x0) == y1 - y0)
    by (field; lra).
  lra.
Qed.


(** Interpolating back along the same segment undoes the interpolation. *)
Lemma linear_interpolate_inverse (x x0 x1 y0 y1 : Q) :
  x0 < x1 -> y0 < y1 ->
  linear_interpolate (linear_interpolate x x0 x1 y0 y1) y0 y1 x0 x1 == x.
Proof.
  intros Hx Hy.
  rewrite (linear_interpolate_eq _ y0 y1 x0 x1) by assumption.
  rewrite (linear_interpolate_eq x x0 x1 y0 y1) by assumption.
  field. split; lra.
Qed.

(** ** Well-formed profiles *)

Lemma well_formed_b_sound (p : TankProfile) :
  well_formed_b p = true -> well_formed p.
Proof.
  unfold well_formed_b. rewrite !andb_true_iff.
  intros [[[[[[Hlen Hpts] Hd] Hv] Hd0] Hv0] Hh].
  constructor.
  - apply Nat.eqb_eq, Hlen.
  - apply Nat.leb_le, Hpts.
  - exact Hd.
  - exact Hv.
  - intros d E. destruct (depth_inches p); [discriminate |].
    inversion E; subst. apply Qle_bool_iff, Hd0.
  - intros g E. destruct (gallons p); [discriminate |].
    inversion E; subst. apply Qle_bool_iff, Hv0.
  - intros d E. unfold ends_at_b in Hh. rewrite E in Hh.
    apply Qeq_bool_iff, Hh.
Qed.

Section WellFormed.

Variable p : TankProfile.
Hypothesis wf : well_formed p.

Lemma depth_defined (i : nat) :
  (i < length (depth_inches p))%nat -> exists d, nth_error (depth_inches p) i = Some d.
Proof.
  intros H. destruct (nth_error (depth_inches p) i) eqn:E; [eauto |].
  apply nth_error_None in E. lia.
Qed.

Lemma volume_defined (i : nat) :
  (i < length (depth_inches p))%nat -> exists g, nth_error (gallons p) i = Some g.
Proof.
  intros H. rewrite (wf_length p wf) in H.
  destruct (nth_error (gallons p) i) eqn:E; [eauto |].
  apply nth_error_None in E. lia.
Qed.

Lemma last_depth : exists dmax, last_item (depth_inches p) = Some dmax.
Proof. apply depth_defined. pose proof (wf_points p wf). lia. Qed.

Lemma last_volume : exists gmax, last_item (gallons p) = Some gmax.
Proof.
  unfold last_item. rewrite <- (wf_length p wf).
  apply volume_defined. pose proof (wf_points p wf). lia.
Qed.

Lemma depth_le_last (i : nat) (d dmax : Q) :
  nth_error (depth_inches p) i = Some d ->
  last_item (depth_inches p) = Some dmax -> d <= dmax.
Proof.
  intros Hd Hmax. pose proof (wf_depths p wf) as Hasc.
  assert (Hi : (i < length (depth_inches p))%nat)
    by (apply nth_error_Some; congruence).
  destruct (Nat.eq_dec i (length (depth_inches p) - 1)) as [-> | Hne].
  - unfold last_item in Hmax. rewrite Hd in Hmax. inversion Hmax. apply Qle_refl.
  - apply Qlt_le_weak.
    apply (ascending_nth (depth_inches p) i (length (depth_inches p) - 1));
      auto; lia.
Qed.

Lemma volume_le_last (i : nat) (g gmax : Q) :
  nth_error (gallons p) i = Some g ->
  last_item (gallons p) = Some gmax -> g <= gmax.
Proof.
  intros Hg Hmax. pose proof (wf_volumes p wf) as Hasc.
  assert (Hi : (i < length (gallons p))%nat)
    by (apply nth_error_Some; congruence).
  apply (non_decreasing_nth (gallons p) i (length (gallons p) - 1));
    auto; lia.
Qed.

Lemma depth_nonneg (i : nat) (d : Q) :
  nth_error (depth_inches p) i = Some d -> 0 <= d.
Proof.
  intros Hd. pose proof (wf_depths p wf) as Hasc.
  assert (Hi : (i < length (depth_inches p))%nat)
    by (apply nth_error_Some; congruence).
  destruct (depth_defined 0) as [d0 Hd0]; [lia |].
  pose proof (wf_depth0 p wf d0 Hd0).
  destruct i as [| i].
  - congruence.
  - assert (d0 < d)
      by (apply (ascending_nth (depth_inches p) 0 (S i)); auto; lia).
    lra.
Qed.

Lemma volume_nonneg (i : nat) (g : Q) :
  nth_error (gallons p) i = Some g -> 0 <= g.
Proof.
  intros Hg. pose proof (wf_volumes p wf) as Hasc.
  assert (Hi : (i < length (gallons p))%nat)
    by (apply nth_error_Some; congruence).
  destruct (volume_defined 0) as [g0 Hg0];
    [rewrite (wf_length p wf); lia |].
  pose proof (wf_volume0 p wf g0 Hg0).
  assert (g0 <= g)
    by (apply (non_decreasing_nth (gallons p) 0 i); auto; lia).
  lra.
Qed.

Lemma last_depth_pos (dmax : Q) :
  last_item (depth_inches p) = Some dmax -> 0 < dmax.
Proof.
  intros Hmax. pose proof (wf_points p wf) as Hpts.
  pose proof (wf_depths p wf) as Hasc.
  destruct (depth_defined 0) as [d0 Hd0]; [lia |].
  pose proof (wf_depth0 p wf d0 Hd0).
  assert (d0 < dmax)
    by (apply (ascending_nth (depth_inches p) 0 (length (depth_inches p) - 1));
        auto; lia).
  lra.
Qed.

End WellFormed.

(** ** The volume engine *)

Lemma depth_to_gallons_zero (p : TankProfile) :
  depth_to_gallons 0 p = Value 0.
Proof. reflexivity. Qed.

Lemma depth_to_gallons_saturates (p : TankProfile) (d dmax gmax : Q) :
  well_formed p ->
  last_item (depth_inches p) = Some dmax ->
  last_item (gallons p) = Some gmax ->
  dmax <= d ->
  depth_to_gallons d p = Value gmax.
Proof.
  intros wf Hd Hg Hle. unfold depth_to_gallons.
  pose proof (last_depth_pos p wf dmax Hd).
  rewrite Qle_bool_false by lra.
  rewrite Hd, (Qle_bool_true _ _ Hle), Hg. reflexivity.
Qed.

(** Strictly inside the interval between two adjacent depth points the
    loop stops at that interval. *)
Lemma depth_to_gallons_inside (p : TankProfile) (i : nat) (d d0 d1 g0 g1 : Q) :
  well_formed p ->
  nth_error (depth_inches p) i = Some d0 ->
  nth_error (depth_inches p) (S i) = Some d1 ->
  nth_error (gallons p) i = Some g0 ->
  nth_error (gallons p) (S i) = Some g1 ->
  d0 < d -> d < d1 ->
  depth_to_gallons d p = Value (linear_interpolate d d0 d1 g0 g1).
Proof.
  intros wf Hd0 Hd1 Hg0 Hg1 Hlo Hhi. unfold depth_to_gallons.
  pose proof (depth_nonneg p wf i d0 Hd0).
  pose proof (wf_depths p wf) as Hasc.
  rewrite Qle_bool_false by lra.
  destruct (last_depth p wf) as [dmax Hmax]. rewrite Hmax.
  pose proof (depth_le_last p wf (S i) d1 dmax Hd1 Hmax).
  rewrite Qle_bool_false by lra.
  assert (Hlen : (S i < length (depth_inches p))%nat)
    by (apply nth_error_Some; congruence).
  unfold bracket_range.
  rewrite (find_bracket_at d _ _ i d0 d1).
  - replace (i + 1)%nat with (S i) by lia. rewrite Hg0, Hg1. reflexivity.
  - exact Hd0.
  - replace (i + 1)%nat with (S i) by lia. exact Hd1.
  - lra.
  - lra.
  - intros j v Hj Hv.
    assert (v <= d0).
    { destruct (Nat.eq_dec (j + 1) i) as [E | E].
      - rewrite E in Hv. rewrite Hd0 in Hv. inversion Hv. apply Qle_refl.
      - apply Qlt_le_weak.
        apply (ascending_nth (depth_inches p) (j + 1) i); auto. lia. }
    lra.
  - lia.
Qed.

Lemma gallons_to_depth_inside (p : TankProfile) (i : nat) (v d0 d1 g0 g1 : Q) :
  well_formed p ->
  nth_error (depth_inches p) i = Some d0 ->
  nth_error (depth_inches p) (S i) = Some d1 ->
  nth_error (gallons p) i = Some g0 ->
  nth_error (gallons p) (S i) = Some g1 ->
  g0 < v -> v < g1 ->
  gallons_to_depth v p = Value (linear_interpolate v g0 g1 d0 d1).
Proof.
  intros wf Hd0 Hd1 Hg0 Hg1 Hlo Hhi. unfold gallons_to_depth.
  pose proof (volume_nonneg p wf i g0 Hg0).
  pose proof (wf_volumes p wf) as Hasc.
  rewrite Qle_bool_false by lra.
  destruct (last_volume p wf) as [gmax Hmax]. rewrite Hmax.
  pose proof (volume_le_last p wf (S i) g1 gmax Hg1 Hmax).
  rewrite Qle_bool_false by lra.
  assert (Hlen : (S i < length (gallons p))%nat)
    by (apply nth_error_Some; congruence).
  unfold bracket_range.
  rewrite (find_bracket_at v _ _ i g0 g1).
  - replace (i + 1)%nat with (S i) by lia. rewrite Hd0, Hd1. reflexivity.
  - exact Hg0.
  - replace (i + 1)%nat with (S i) by lia. exact Hg1.
  - lra.
  - lra.
  - intros j u Hj Hu.
    assert (u <= g0)
      by (apply (non_decreasing_nth (gallons p) (j + 1) i); auto; lia).
    lra.
  - lia.
Qed.

(** In the gap between depth zero and the first table point no interval
    of the table holds the depth. *)
Lemma depth_to_gallons_gap (p : TankProfile) (d d0 : Q) :
  well_formed p ->
  nth_error (depth_inches p) 0 = Some d0 ->
  0 < d -> d < d0 ->
  depth_to_gallons d p = NoneValue.
Proof.
  intros wf Hd0 Hpos Hlt. unfold depth_to_gallons.
  pose proof (wf_depths p wf) as Hasc.
  rewrite Qle_bool_false by lra.
  destruct (last_depth p wf) as [dmax Hmax]. rewrite Hmax.
  pose proof (depth_le_last p wf 0 d0 dmax Hd0 Hmax).
  rewrite Qle_bool_false by lra.
  apply find_bracket_below.
  - intros j u Hu. destruct j as [| j].
    + rewrite Hd0 in Hu. inversion Hu; subst. exact Hlt.
    + assert (d0 < u)
        by (apply (ascending_nth (depth_inches p) 0 (S j)); auto; lia).
      lra.
  - lia.
Qed.

(** From an index whose entry is at most [x], and before an index whose
    entry is above [x], the loop finds an interval that holds [x]. *)
Lemma find_bracket_total (x : Q) (xt yt : list Q) :
  length yt = length xt ->
  forall n a xa xn,
    nth_error xt a = Some xa -> nth_error xt (a + n) = Some xn ->
    xa <= x -> x < xn ->
    exists i x0 x1 y0 y1,
      nth_error xt i = Some x0 /\ nth_error xt (S i) = Some x1
      /\ nth_error yt i = Some y0 /\ nth_error yt (S i) = Some y1
      /\ x0 <= x /\ x <= x1
      /\ find_bracket x xt yt (seq a n) = Value (linear_interpolate x x0 x1 y0 y1).
Proof.
  intros Hlen. induction n as [| n IH]; intros a xa xn Ha Hn Hlo Hhi.
  - rewrite Nat.add_0_r, Ha in Hn. inversion Hn; subst. lra.
  - assert (Hin : (a + S n < length xt)%nat)
      by (apply nth_error_Some; congruence).
    destruct (nth_error xt (S a)) as [x1 |] eqn:H1.
    2:{ apply nth_error_None in H1. lia. }
    simpl seq. simpl find_bracket.
    rewrite Ha, (Qle_bool_true _ _ Hlo).
    replace (a + 1)%nat with (S a) by lia. rewrite H1.
    destruct (Qle_bool x x1) eqn:E.
    + apply Qle_bool_iff in E.
      destruct (nth_error yt a) as [y0 |] eqn:Hy0.
      2:{ apply nth_error_None in Hy0. lia. }
      destruct (nth_error yt (S a)) as [y1 |] eqn:Hy1.
      2:{ apply nth_error_None in Hy1. lia. }
      exists a, xa, x1, y0, y1. repeat split; assumption.
    + apply (IH (S a) x1 xn); auto.
      * replace (S a + n)%nat with (a + S n)%nat by lia. exact Hn.
      * apply Qlt_le_weak, Qlt_bool_iff. unfold Qlt_bool. rewrite E. reflexivity.
Qed.



Section Monotone.

Variable p : TankProfile.
Hypothesis wf : well_formed p.
Variable first_depth : Q.
Hypothesis first_depth_is : nth_error (depth_inches p) 0 = Some first_depth.

(** Between the first and the last table depth the result is an
    interpolation on an interval of the table that holds the depth. *)
Lemma depth_to_gallons_bracket (d dmax : Q) :
  last_item (depth_inches p) = Some dmax ->
  0 < d -> first_depth <= d -> d < dmax ->
  exists i x0 x1 y0 y1,
    nth_error (depth_inches p) i = Some x0
    /\ nth_error (depth_inches p) (S i) = Some x1
    /\ nth_error (gallons p) i = Some y0
    /\ nth_error (gallons p) (S i) = Some y1
    /\ x0 <= d /\ d <= x1
    /\ depth_to_gallons d p = Value (linear_interpolate d x0 x1 y0 y1).
Proof.
  intros Hmax Hpos Hlo Hhi. unfold depth_to_gallons.
  rewrite Qle_bool_false by lra. rewrite Hmax.
  rewrite Qle_bool_false by lra.
  unfold bracket_range.
  apply (find_bracket_total d _ _ (eq_sym (wf_length p wf))
           (length (depth_inches p) - 1) 0 first_depth dmax); auto.
Qed.

Lemma depth_to_gallons_defined (d : Q) :
  d <= 0 \/ first_depth <= d ->
  exists v, depth_to_gallons d p = Value v /\ volume_at p d v.
Proof.
  intros Hd.
  destruct (Qlt_le_dec 0 d) as [Hpos | Hneg].
  - assert (Hlo : first_depth <= d) by (destruct Hd; [lra | assumption]).
    destruct (last_depth p wf) as [dmax Hmax].
    destruct (last_volume p wf) as [gmax Hg].
    destruct (Qlt_le_dec d dmax) as [Hin | Hout].
    + destruct (depth_to_gallons_bracket d dmax Hmax Hpos Hlo Hin)
        as (i & x0 & x1 & y0 & y1 & H0 & H1 & G0 & G1 & L & U & E).
      eexists. split; [exact E |].
      apply (on_interval p d _ i x0 x1 y0 y1); auto.
    + exists gmax. split.
      * apply (depth_to_gallons_saturates p d dmax); assumption.
      * apply (at_or_above_last p d gmax dmax); auto.
  - exists 0. split.
    + unfold depth_to_gallons. rewrite (Qle_bool_true _ _ Hneg). reflexivity.
    + apply at_or_below_zero; [assumption | reflexivity].
Qed.

Lemma interval_ascends (i : nat) (x0 x1 : Q) :
  nth_error (depth_inches p) i = Some x0 ->
  nth_error (depth_inches p) (S i) = Some x1 -> x0 < x1.
Proof.
  intros H0 H1. pose proof (wf_depths p wf).
  apply (ascending_nth (depth_inches p) i (S i)); auto.
Qed.

Lemma interval_volumes (i : nat) (y0 y1 : Q) :
  nth_error (gallons p) i = Some y0 ->
  nth_error (gallons p) (S i) = Some y1 -> y0 <= y1.
Proof.
  intros H0 H1. pose proof (wf_volumes p wf).
  apply (non_decreasing_nth (gallons p) i (S i)); auto.
Qed.

Lemma volume_at_nonneg (d v : Q) : volume_at p d v -> 0 <= v.
Proof.
  intros [Hd Hv | dmax Hmax Hpos Hle Hg | i x0 x1 y0 y1 H0 H1 G0 G1 Hpos L U ->].
  - lra.
  - unfold last_item in Hg. eapply volume_nonneg; eauto.
  - pose proof (interval_ascends i x0 x1 H0 H1).
    pose proof (interval_volumes i y0 y1 G0 G1).
    pose proof (volume_nonneg p wf i y0 G0).
    destruct (linear_interpolate_bounds d x0 x1 y0 y1); auto. lra.
Qed.

Lemma volume_at_le_last (d v gmax : Q) :
  volume_at p d v -> last_item (gallons p) = Some gmax -> v <= gmax.
Proof.
  intros [Hd Hv | dmax Hmax Hpos Hle Hg | i x0 x1 y0 y1 H0 H1 G0 G1 Hpos L U ->] Hlast.
  - unfold last_item in Hlast. pose proof (volume_nonneg p wf _ gmax Hlast). lra.
  - rewrite Hg in Hlast. inversion Hlast. apply Qle_refl.
  - pose proof (interval_ascends i x0 x1 H0 H1).
    pose proof (interval_volumes i y0 y1 G0 G1).
    pose proof (volume_le_last p wf (S i) y1 gmax G1 Hlast).
    destruct (linear_interpolate_bounds d x0 x1 y0 y1); auto. lra.
Qed.



End Monotone.

(** C4.  On the reference profile, which is well formed, the depth of
    half an inch lies within [0, height], and [depth_to_gallons] returns
    [None] for it rather than a volume: the search loop starts at the
    first table depth (one inch) and finds no interval.  The property
    that [depth_to_gallons] yields a number for every depth of
    [0, height] fails there. *)
Theorem depth_to_gallons_half_inch_is_None :
  well_formed_b TANK_275_VERTICAL_OVAL = true
  /\ 0 <= 1 # 2 <= height_inches TANK_275_VERTICAL_OVAL
  /\ depth_to_gallons (1 # 2) TANK_275_VERTICAL_OVAL = NoneValue.
Proof.
  split; [reflexivity |]. split; [| reflexivity].
  simpl. lra.
Qed.

(** C5.  For a well-formed profile the volume at depth 0 is 0; the
    volume at the tank height is the capacity, that is the largest
    volume of the table; at and above the last table depth the result
    stays at that volume.  On the reference table the volume at 50 in
    is 275 gal, the table's largest volume and the profile's
    [capacity_gallons], and the volume at 22.5 in is 140.5 gal. *)
Theorem depth_to_gallons_endpoints (p : TankProfile) :
  well_formed_b p = true ->
  depth_to_gallons 0 p = Value 0
  /\ (exists capacity,
        In capacity (gallons p)
        /\ (forall g, In g (gallons p) -> g <= capacity)
        /\ depth_to_gallons (height_inches p) p = Value capacity
        /\ forall d dmax,
            last_item (depth_inches p) = Some dmax -> dmax <= d ->
            depth_to_gallons d p = Value capacity)
  /\ depth_to_gallons 50 TANK_275_VERTICAL_OVAL
     = Value (capacity_gallons TANK_275_VERTICAL_OVAL)
  /\ capacity_gallons TANK_275_VERTICAL_OVAL = 275
  /\ depth_to_gallons (45 # 2) TANK_275_VERTICAL_OVAL = Value (281 # 2).
Proof.
  intros Hwf. apply well_formed_b_sound in Hwf.
  split; [reflexivity |]. split; [| repeat split; reflexivity].
  destruct (last_volume p Hwf) as [gmax Hg].
  destruct (last_depth p Hwf) as [dmax Hd].
  exists gmax. repeat split.
  - eapply nth_error_In, Hg.
  - intros g Hin. apply In_nth_error in Hin as [i Hi].
    eapply volume_le_last; eauto.
  - apply (depth_to_gallons_saturates p _ dmax); auto.
    rewrite (wf_height p Hwf dmax Hd). apply Qle_refl.
  - intros d dmax' Hd' Hle.
    apply (depth_to_gallons_saturates p _ dmax'); auto.
Qed.

Lemma depth_to_gallons_endpoints_witness :
  well_formed_b TANK_275_VERTICAL_OVAL = true
  /\ depth_to_gallons 0 TANK_275_VERTICAL_OVAL = Value 0.
Proof.
  split; [reflexivity |].
  exact (proj1 (depth_to_gallons_endpoints TANK_275_VERTICAL_OVAL eq_refl)).
Defined.

(** C6.  For a well-formed profile and a depth strictly between two
    adjacent depth points whose volumes strictly increase, converting
    the depth to a volume and the volume back to a depth returns the
    depth, exactly in rational arithmetic. *)
Theorem gallons_to_depth_round_trip
        (p : TankProfile) (i : nat) (d d0 d1 g0 g1 : Q) :
  well_formed_b p = true ->
  nth_error (depth_inches p) i = Some d0 ->
  nth_error (depth_inches p) (S i) = Some d1 ->
  nth_error (gallons p) i = Some g0 ->
  nth_error (gallons p) (S i) = Some g1 ->
  d0 < d -> d < d1 ->
  g0 < g1 ->
  exists v r,
    depth_to_gallons d p = Value v
    /\ gallons_to_depth v p = Value r
    /\ r == d.
Proof.
  intros Hwf Hd0 Hd1 Hg0 Hg1 Hlo Hhi Hg.
  apply well_formed_b_sound in Hwf.
  assert (Hd : d0 < d1) by lra.
  exists (linear_interpolate d d0 d1 g0 g1).
  exists (linear_interpolate (linear_interpolate d d0 d1 g0 g1) g0 g1 d0 d1).
  split; [| split].
  - apply (depth_to_gallons_inside p i); assumption.
  - destruct (linear_interpolate_strict d d0 d1 g0 g1 Hd Hg Hlo Hhi).
    apply (gallons_to_depth_inside p i); assumption.
  - apply linear_interpolate_inverse; assumption.
Qed.

Lemma gallons_to_depth_round_trip_witness :
  exists v r,
    depth_to_gallons (45 # 2) TANK_275_VERTICAL_OVAL = Value v
    /\ gallons_to_depth v TANK_275_VERTICAL_OVAL = Value r
    /\ r == 45 # 2.
Proof.
  apply (gallons_to_depth_round_trip TANK_275_VERTICAL_OVAL 21 (45 # 2)
           22 23 137 144);
    try reflexivity.
Defined.

(** ** The sensor reader *)

Lemma out_of_range_iff (mm : Z) :
  out_of_range mm = true <-> (mm <= 0 \/ 8000 < mm)%Z.
Proof.
  unfold out_of_range, SENSOR_MIN_READING_MM, SENSOR_MAX_READING_MM.
  rewrite orb_true_iff, Z.leb_le, Z.ltb_lt. reflexivity.
Qed.

(** A sample outside the window is rejected with the message "Invalid
    sensor reading", whatever the configuration. *)
Lemma read_tank_level_rejects cfg tank_profile (mm now : Z) :
  (mm <= 0 \/ 8000 < mm)%Z ->
  read_tank_level cfg tank_profile (SensorValue mm) now
  = ([Feed; SensorRead (SensorValue mm); Log (InvalidSensorReading mm)], None).
Proof.
  intros H. apply out_of_range_iff in H.
  unfold read_tank_level. rewrite H. reflexivity.
Qed.

(** Only a sample inside the window becomes a reading. *)
Lemma reading_from_valid_sample cfg tank_profile rd now events r :
  read_tank_level cfg tank_profile rd now = (events, Some r) ->
  exists mm, rd = SensorValue mm /\ (0 < mm <= 8000)%Z.
Proof.
  unfold read_tank_level. destruct rd as [mm | |]; try discriminate.
  destruct (out_of_range mm) eqn:E; [discriminate |].
  intros _. exists mm. split; [reflexivity |].
  destruct (Z_le_gt_dec mm 0) as [H | H].
  - assert (out_of_range mm = true) by (apply out_of_range_iff; lia). congruence.
  - destruct (Z_lt_le_dec 8000 mm) as [H' | H']; [| lia].
    assert (out_of_range mm = true) by (apply out_of_range_iff; lia). congruence.
Qed.

(** Without a tank profile every sample inside the window becomes a
    reading. *)
Lemma linear_mode_reads cfg (mm now : Z) :
  (0 < mm <= 8000)%Z ->
  exists r, read_tank_level cfg None (SensorValue mm) now
            = ([Feed; SensorRead (SensorValue mm)], Some r).
Proof.
  intros H. unfold read_tank_level.
  destruct (out_of_range mm) eqn:E.
  - apply out_of_range_iff in E. lia.
  - destruct (Qlt_bool 0 (height cfg)); eauto.
Qed.

(** With a profile, a sample inside the window becomes a reading exactly
    when the table conversion yields a number for the clamped depth (or
    the capacity is not positive and the conversion does not raise). *)
Lemma profile_mode_reads cfg profile (mm now : Z) :
  (0 < mm <= 8000)%Z ->
  let liquid_depth :=
    py_max (empty_level cfg)
           (py_min (height cfg - inject_Z mm / MM_TO_INCHES + calibration_offset cfg)
                   (height cfg)) in
  is_some (snd (read_tank_level cfg (Some profile) (SensorValue mm) now))
  = match depth_to_gallons liquid_depth profile with
    | Value _ => true
    | NoneValue => negb (Qlt_bool 0 (capacity_gallons profile))
    | IndexError => false
    end.
Proof.
  intros H. unfold read_tank_level.
  destruct (out_of_range mm) eqn:E.
  - apply out_of_range_iff in E. lia.
  - cbv zeta.
    destruct (depth_to_gallons _ profile);
      destruct (Qlt_bool 0 (capacity_gallons profile)); reflexivity.
Qed.

(** C7.  A sample of exactly 8000 mm passes the range test, yet with the
    reference profile and an empty-level floor of half an inch
    [read_tank_level] returns [None] for it: the depth is clamped to the
    floor, [depth_to_gallons] returns [None] there, and the division of
    [None] by the capacity raises inside the [try].  The samples of 0 mm
    and of 8001 mm are refused by the range test; with the floor at 0
    the sample of 8000 mm does produce a reading. *)
Theorem valid_sample_without_reading (now : Z) :
  out_of_range 8000 = false
  /\ read_tank_level raised_floor_tank (Some TANK_275_VERTICAL_OVAL)
                     (SensorValue 8000) now
     = ([Feed; SensorRead (SensorValue 8000); Log SensorReadError], None)
  /\ read_tank_level raised_floor_tank (Some TANK_275_VERTICAL_OVAL)
                     (SensorValue 0) now
     = ([Feed; SensorRead (SensorValue 0); Log (InvalidSensorReading 0)], None)
  /\ read_tank_level raised_floor_tank (Some TANK_275_VERTICAL_OVAL)
                     (SensorValue 8001) now
     = ([Feed; SensorRead (SensorValue 8001); Log (InvalidSensorReading 8001)], None)
  /\ is_some (snd (read_tank_level reference_tank (Some TANK_275_VERTICAL_OVAL)
                                   (SensorValue 8000) now)) = true.
Proof.
  repeat split; reflexivity.
Qed.

(** With the reference configuration a sample of 1105 mm puts the
    liquid just under half an inch deep: the sample is inside the
    window and no reading comes back. *)
Lemma nearly_empty_tank_is_not_read (now : Z) :
  out_of_range 1105 = false
  /\ read_tank_level reference_tank (Some TANK_275_VERTICAL_OVAL)
                     (SensorValue 1105) now
     = ([Feed; SensorRead (SensorValue 1105); Log SensorReadError], None).
Proof.
  split; reflexivity.
Qed.

(** ** The monitor loop: one failure counter *)

Section Loop.

Variable cfg : TankConfig.
Variable iv : Intervals.
Variable tank_profile : option TankProfile.

Local Abbreviation cycle' := (cycle cfg iv tank_profile).
Local Abbreviation loop := (monitor_loop_from cfg iv tank_profile).

Lemma read_tank_level_reading (env : CycleEnv) :
  read_tank_level cfg tank_profile (sensor env) (stamp env)
  = (fst (read_tank_level cfg tank_profile (sensor env) (stamp env)),
     reading_of cfg tank_profile env).
Proof. unfold reading_of. apply surjective_pairing. Qed.

(** The counter after a cycle, by cases on what happened in it. *)
Lemma cycle_counter (env : CycleEnv) (st : LoopState) :
  counter_after (snd (cycle' env st)) =
    if shutdown_requested env then None
    else if wifi_ok env && is_some (reading_of cfg tank_profile env) then Some 0%Z
    else if (MAX_CONSECUTIVE_FAILURES <=? consecutive_failures st + 1)%Z then None
    else Some (consecutive_failures st + 1)%Z.
Proof.
  unfold cycle.
  destruct (shutdown_requested env); [reflexivity |].
  destruct (wifi_ok env); simpl.
  - rewrite read_tank_level_reading.
    destruct (reading_of cfg tank_profile env) as [r |]; simpl.
    + destruct (publish_if_due iv env st r). reflexivity.
    + destruct (MAX_CONSECUTIVE_FAILURES <=? consecutive_failures st + 1)%Z;
        reflexivity.
  - destruct (MAX_CONSECUTIVE_FAILURES <=? consecutive_failures st + 1)%Z;
      reflexivity.
Qed.

(** No cycle assigns [last_restart_time]. *)
Lemma cycle_last_restart_time (env : CycleEnv) (st st' : LoopState) :
  snd (cycle' env st) = Continue st' ->
  last_restart_time st' = last_restart_time st.
Proof.
  unfold cycle.
  destruct (shutdown_requested env); [discriminate |].
  destruct (wifi_ok env); simpl.
  - rewrite read_tank_level_reading.
    destruct (reading_of cfg tank_profile env) as [r |]; simpl.
    + destruct (publish_if_due iv env st r). simpl.
      intros H; inversion H; reflexivity.
    + destruct (MAX_CONSECUTIVE_FAILURES <=? consecutive_failures st + 1)%Z;
        simpl; intros H; inversion H; reflexivity.
  - destruct (MAX_CONSECUTIVE_FAILURES <=? consecutive_failures st + 1)%Z;
      simpl; intros H; inversion H; reflexivity.
Qed.

Lemma loop_last_restart_time (envs : list CycleEnv) :
  forall st st',
    snd (loop envs st) = Continue st' ->
    last_restart_time st' = last_restart_time st.
Proof.
  induction envs as [| env rest IH]; intros st st' H.
  - simpl in H. inversion H; reflexivity.
  - simpl in H.
    destruct (cycle cfg iv tank_profile env st) as [events res] eqn:E.
    destruct res as [st1 | |]; try discriminate.
    destruct (loop rest st1) as [events' res'] eqn:E'.
    simpl in H. subst res'.
    rewrite (IH st1 st') by (rewrite E'; reflexivity).
    apply (cycle_last_restart_time env). rewrite E. reflexivity.
Qed.

(** A failing cycle below the ceiling: the counter goes up by one and
    the device is not reset. *)
Lemma failing_cycle_below (env : CycleEnv) (st : LoopState) :
  cycle_fails cfg tank_profile env = true ->
  (consecutive_failures st + 1 < MAX_CONSECUTIVE_FAILURES)%Z ->
  snd (cycle' env st)
  = Continue {| consecutive_failures := consecutive_failures st + 1;
                last_restart_time := last_restart_time st;
                last_publish := last_publish st |}
  /\ count is_reset (fst (cycle' env st)) = 0%nat.
Proof.
  unfold cycle_fails, cycle. intros Hf Hlt.
  apply andb_true_iff in Hf as [Hs Hf]. apply negb_true_iff in Hs.
  rewrite Hs.
  assert (E : (MAX_CONSECUTIVE_FAILURES <=? consecutive_failures st + 1)%Z = false)
    by (apply Z.leb_gt; exact Hlt).
  destruct (wifi_ok env); simpl in *.
  - rewrite read_tank_level_reading.
    destruct (reading_of cfg tank_profile env) as [r |]; [discriminate |].
    rewrite E. split; [reflexivity |].
    unfold read_tank_level.
    destruct (sensor env) as [mm | |]; try reflexivity.
    destruct (out_of_range mm); [reflexivity |]. cbv zeta.
    destruct tank_profile as [profile |].
    + destruct (depth_to_gallons _ profile);
        destruct (Qlt_bool 0 (capacity_gallons profile)); reflexivity.
    + destruct (Qlt_bool 0 (height cfg)); reflexivity.
  - rewrite E. split; reflexivity.
Qed.

(** A failing cycle that reaches the ceiling runs the restart block. *)
Lemma failing_cycle_at_ceiling (env : CycleEnv) (st : LoopState) :
  cycle_fails cfg tank_profile env = true ->
  (MAX_CONSECUTIVE_FAILURES <= consecutive_failures st + 1)%Z ->
  exists before final,
    cycle' env st
    = (before ++ restart_with_cooldown (clock env) (last_restart_time st) final,
       DeviceReset)
    /\ count is_reset before = 0%nat
    /\ (forall s, ~ In (Sleep s) before)
    /\ In Feed before.
Proof.
  unfold cycle_fails, cycle. intros Hf Hle.
  apply andb_true_iff in Hf as [Hs Hf]. apply negb_true_iff in Hs.
  rewrite Hs.
  assert (E : (MAX_CONSECUTIVE_FAILURES <=? consecutive_failures st + 1)%Z = true)
    by (apply Z.leb_le; exact Hle).
  destruct (wifi_ok env); simpl in *.
  - rewrite read_tank_level_reading.
    destruct (reading_of cfg tank_profile env) as [r |]; [discriminate |].
    rewrite E.
    exists ([Feed; GcCollect; WifiCheck true]
              ++ fst (read_tank_level cfg tank_profile (sensor env) (stamp env))
              ++ [Log (SensorReadFailed (consecutive_failures st + 1))]),
           TooManySensorFailures.
    split; [| split; [| split]]; [| | | left; reflexivity].
    + rewrite <- !app_assoc. reflexivity.
    + unfold read_tank_level.
      destruct (sensor env) as [mm | |]; try reflexivity.
      destruct (out_of_range mm); [reflexivity |]. cbv zeta.
      destruct tank_profile as [profile |].
      * destruct (depth_to_gallons _ profile);
          destruct (Qlt_bool 0 (capacity_gallons profile)); reflexivity.
      * destruct (Qlt_bool 0 (height cfg)); reflexivity.
    + intros s. unfold read_tank_level.
      assert (G : forall l : list event,
                 l = [Feed; SensorRead (sensor env)]
                 \/ (exists m, l = [Feed; SensorRead (sensor env); Log m]) ->
                 ~ In (Sleep s)
                      ([Feed; GcCollect; WifiCheck true] ++ l ++
                       [Log (SensorReadFailed (consecutive_failures st + 1))])).
      { intros l [-> | [m ->]]; simpl; intuition discriminate. }
      apply G.
      destruct (sensor env) as [mm | |]; simpl; eauto.
      destruct (out_of_range mm); simpl; eauto.
      destruct tank_profile as [profile |].
      * destruct (depth_to_gallons _ profile);
          destruct (Qlt_bool 0 (capacity_gallons profile)); simpl; eauto.
      * destruct (Qlt_bool 0 (height cfg)); simpl; eauto.
  - rewrite E.
    exists [Feed; GcCollect; WifiCheck false], TooManyConsecutiveFailures.
    split; [reflexivity |]. split; [reflexivity |].
    split; [| left; reflexivity].
    intros s; simpl; intuition discriminate.
Qed.

Lemma loop_app (a b : list CycleEnv) (st : LoopState) :
  loop (a ++ b) st
  = match loop a st with
    | (events, Continue st') =>
        let (events', result) := loop b st' in (events ++ events', result)
    | stopped => stopped
    end.
Proof.
  revert st. induction a as [| env rest IH]; intros st.
  - simpl. destruct (loop b st). reflexivity.
  - simpl.
    destruct (cycle cfg iv tank_profile env st) as [events res].
    destruct res as [st1 | |]; try reflexivity.
    rewrite IH. destruct (loop rest st1) as [e1 r1].
    destruct r1 as [st2 | |]; try reflexivity.
    destruct (loop b st2) as [e2 r2]. rewrite app_assoc. reflexivity.
Qed.

Lemma count_app (f : event -> bool) (a b : list event) :
  count f (a ++ b) = (count f a + count f b)%nat.
Proof. unfold count. rewrite filter_app, length_app. reflexivity. Qed.

(** A run of failing cycles that stays below the ceiling. *)
Lemma failing_run_below (envs : list CycleEnv) :
  forall st,
    forallb (cycle_fails cfg tank_profile) envs = true ->
    (consecutive_failures st + Z.of_nat (length envs) < MAX_CONSECUTIVE_FAILURES)%Z ->
    exists events,
      loop envs st
      = (events,
         Continue {| consecutive_failures :=
                       consecutive_failures st + Z.of_nat (length envs);
                     last_restart_time := last_restart_time st;
                     last_publish := last_publish st |})
      /\ count is_reset events = 0%nat.
Proof.
  induction envs as [| env rest IH]; intros st Hall Hlt.
  - exists []. simpl. rewrite Z.add_0_r. destruct st. split; reflexivity.
  - simpl in Hall. apply andb_true_iff in Hall as [Hf Hrest].
    simpl length in Hlt. rewrite Nat2Z.inj_succ in Hlt.
    destruct (failing_cycle_below env st Hf) as [Hres Hnone]; [lia |].
    simpl.
    destruct (cycle cfg iv tank_profile env st) as [e1 r1].
    simpl in Hres, Hnone. subst r1.
    set (st1 := {| consecutive_failures := consecutive_failures st + 1;
                   last_restart_time := last_restart_time st;
                   last_publish := last_publish st |}).
    destruct (IH st1 Hrest) as [e2 [Hloop Hnone2]]; [simpl; lia |].
    rewrite Hloop. simpl. exists (e1 ++ e2). split.
    + do 3 f_equal. simpl. lia.
    + rewrite count_app, Hnone, Hnone2. reflexivity.
Qed.

End Loop.

Lemma restart_with_cooldown_waiting (now last : Z) (final : message) :
  (now - last < RESTART_COOLDOWN_SEC)%Z ->
  restart_with_cooldown now last final
  = [Log (CooldownActive (RESTART_COOLDOWN_SEC - (now - last)));
     Sleep (inject_Z (RESTART_COOLDOWN_SEC - (now - last)));
     Log final; MachineReset].
Proof.
  intros H. unfold restart_with_cooldown.
  apply Z.ltb_lt in H. rewrite H. reflexivity.
Qed.

Lemma restart_with_cooldown_at_once (now last : Z) (final : message) :
  (RESTART_COOLDOWN_SEC <= now - last)%Z ->
  restart_with_cooldown now last final = [Log final; MachineReset].
Proof.
  intros H. unfold restart_with_cooldown.
  apply Z.ltb_ge in H. rewrite H. reflexivity.
Qed.

Lemma restart_with_cooldown_resets (now last : Z) (final : message) :
  exists before, restart_with_cooldown now last final = before ++ [MachineReset]
                 /\ count is_reset before = 0%nat
                 /\ count is_feed before = 0%nat.
Proof.
  unfold restart_with_cooldown.
  destruct (now - last <? RESTART_COOLDOWN_SEC)%Z.
  - eexists [_; _; _]. repeat split.
  - exists [Log final]. repeat split.
Qed.

Lemma split_last {A} (l : list A) (n : nat) :
  length l = S n -> exists a e, l = a ++ [e] /\ length a = n.
Proof.
  intros H. destruct (exists_last (l := l)) as [a [e E]].
  - intros ->. discriminate.
  - exists a, e. split; [exact E |].
    rewrite E, length_app in H. simpl in H. lia.
Qed.

(** C1, as stated, does not hold.  From the initial state a cycle whose
    connectivity check fails and a cycle whose sensor read fails lead to
    one and the same loop state, so no two projections of the loop state
    can behave as two independent per-domain counters. *)
Lemma independent_counters_counterexample :
  snd (cycle reference_tank reference_intervals None (wifi_down 0) initial_state)
  = snd (cycle reference_tank reference_intervals None
               (sensing SensorNone PublishReturns 0) initial_state)
  /\ ~ exists sensor_counter connectivity_counter,
         independent_counters reference_tank reference_intervals None
                              sensor_counter connectivity_counter.
Proof.
  split; [reflexivity |].
  intros (s & c & Hs & Hc & Hstep).
  set (st1 := {| consecutive_failures := 1; last_restart_time := 0;
                 last_publish := 0 |}).
  destruct (Hstep (wifi_down 0) initial_state st1 eq_refl) as [_ A].
  destruct (Hstep (sensing SensorNone PublishReturns 0) initial_state st1 eq_refl)
    as [_ B].
  simpl in A, B. rewrite Hc in A. lia.
Qed.

(** C1, amended.  The loop keeps one counter of consecutive failed
    cycles, starting at 0.  A cycle whose connectivity check fails and a
    cycle whose sensor read yields no reading each add one to it (or
    reset the device when the ceiling is reached); a cycle that yields a
    reading sets it to 0; a passed connectivity check alone leaves the
    decision to the sensor read of the same cycle. *)
Theorem single_failure_counter cfg iv tank_profile (env : CycleEnv) (st : LoopState) :
  consecutive_failures initial_state = 0%Z
  /\ counter_after (snd (cycle cfg iv tank_profile env st)) =
       if shutdown_requested env then None
       else if wifi_ok env && is_some (reading_of cfg tank_profile env) then Some 0%Z
       else if (MAX_CONSECUTIVE_FAILURES <=? consecutive_failures st + 1)%Z then None
       else Some (consecutive_failures st + 1)%Z.
Proof.
  split; [reflexivity | apply cycle_counter].
Qed.

(** C2, as stated, does not hold for each domain.  After one failed
    connectivity check, nine sensor failures in a row reset the device
    on the ninth of them, although the connectivity checks of those
    nine cycles passed; and a passed connectivity check between two
    failed ones does not bring the counter back to 0. *)
Lemma per_domain_ceiling_counterexample :
  (let trace := wifi_down 0
                :: map (sensing SensorNone PublishReturns)
                       [5; 10; 15; 20; 25; 30; 35; 40; 45]%Z in
   fault_counters reference_tank None trace
   = {| sensor_failures := 9; connectivity_failures := 0 |}
   /\ snd (monitor_loop reference_tank reference_intervals None trace) = DeviceReset)
  /\ (let trace := [wifi_down 0; sensing SensorNone PublishReturns 5; wifi_down 10] in
      fault_counters reference_tank None trace
      = {| sensor_failures := 1; connectivity_failures := 1 |}
      /\ counter_after
           (snd (monitor_loop reference_tank reference_intervals None trace))
         = Some 3%Z).
Proof.
  repeat split.
Qed.

(** C2, amended.  The counter counts consecutive failed cycles of
    either kind.  Starting from a counter of 0, nine failed cycles in a
    row leave the loop running with the counter at 9 and no reset; the
    tenth failed cycle ends in [machine.reset()], the last event of the
    run; and a cycle that yields a reading sets the counter to 0 from
    any state. *)
Theorem restart_on_tenth_failed_cycle
        cfg iv tank_profile (envs : list CycleEnv) (st : LoopState) :
  consecutive_failures st = 0%Z ->
  forallb (cycle_fails cfg tank_profile) envs = true ->
  (length envs = 9%nat ->
   exists events st',
     monitor_loop_from cfg iv tank_profile envs st = (events, Continue st')
     /\ consecutive_failures st' = 9%Z
     /\ count is_reset events = 0%nat)
  /\ (length envs = 10%nat ->
      exists before,
        monitor_loop_from cfg iv tank_profile envs st
        = (before ++ [MachineReset], DeviceReset)
        /\ count is_reset before = 0%nat)
  /\ (forall env st0,
        cycle_succeeds cfg tank_profile env = true ->
        counter_after (snd (cycle cfg iv tank_profile env st0)) = Some 0%Z).
Proof.
  intros Hzero Hall. split; [| split].
  - intros Hlen.
    destruct (failing_run_below cfg iv tank_profile envs st Hall)
      as [events [Hloop Hnone]].
    + rewrite Hzero, Hlen. reflexivity.
    + exists events. eexists. split; [exact Hloop |].
      split; [| exact Hnone]. simpl. rewrite Hzero, Hlen. reflexivity.
  - intros Hlen.
    destruct (split_last envs 9 Hlen) as (a & e & -> & Hlen9).
    rewrite forallb_app in Hall. apply andb_true_iff in Hall as [Ha He].
    simpl in He. rewrite andb_true_r in He.
    destruct (failing_run_below cfg iv tank_profile a st Ha)
      as [events [Hloop Hnone]].
    + rewrite Hzero, Hlen9. reflexivity.
    + rewrite loop_app, Hloop. simpl.
      match goal with
      | |- context [cycle cfg iv tank_profile e ?s] => set (st9 := s)
      end.
      destruct (failing_cycle_at_ceiling cfg iv tank_profile e st9 He)
        as (before & final & Hcycle & Hnone' & _).
      { simpl. rewrite Hzero, Hlen9. unfold MAX_CONSECUTIVE_FAILURES. lia. }
      rewrite Hcycle.
      destruct (restart_with_cooldown_resets (clock e) (last_restart_time st9) final)
        as (wait & Hwait & Hnone'' & _).
      rewrite Hwait.
      exists (events ++ before ++ wait). split.
      * rewrite <- !app_assoc. reflexivity.
      * rewrite !count_app, Hnone, Hnone', Hnone''. reflexivity.
  - intros env st0 Hok. rewrite cycle_counter.
    unfold cycle_succeeds in Hok.
    apply andb_true_iff in Hok as [Hok Hr].
    apply andb_true_iff in Hok as [Hs Hw].
    apply negb_true_iff in Hs. rewrite Hs, Hw, Hr. reflexivity.
Qed.

Lemma restart_on_tenth_failed_cycle_witness :
  exists before,
    monitor_loop reference_tank reference_intervals None
                 (map wifi_down [0; 5; 10; 15; 20; 25; 30; 35; 40; 45]%Z)
    = (before ++ [MachineReset], DeviceReset)
    /\ count is_reset before = 0%nat.
Proof.
  apply (restart_on_tenth_failed_cycle reference_tank reference_intervals None
           (map wifi_down [0; 5; 10; 15; 20; 25; 30; 35; 40; 45]%Z)
           initial_state eq_refl eq_refl).
  reflexivity.
Defined.



(** C9, as stated, does not hold.  Nine failed cycles five seconds
    apart bring the counter to 9; the tenth failed cycle, forty-five
    seconds after the last restart time, waits fifteen seconds in one
    call of [time.sleep]; between the start of that wait and the reset
    the watchdog is not fed, on the connectivity path and on the sensor
    path alike. *)
Lemma cooldown_wait_without_feed :
  snd (monitor_loop reference_tank reference_intervals None
                    (map wifi_down [0; 5; 10; 15; 20; 25; 30; 35; 40]%Z))
  = Continue nine_failures
  /\ fst (cycle reference_tank reference_intervals None (wifi_down 45) nine_failures)
     = [Feed; GcCollect; WifiCheck false;
        Log (CooldownActive 15); Sleep 15;
        Log TooManyConsecutiveFailures; MachineReset]
  /\ fst (cycle reference_tank reference_intervals None
                (sensing SensorNone PublishReturns 45) nine_failures)
     = [Feed; GcCollect; WifiCheck true;
        Feed; SensorRead SensorNone; Log SensorReturnedNone;
        Log (SensorReadFailed 10);
        Log (CooldownActive 15); Sleep 15;
        Log TooManySensorFailures; MachineReset].
Proof.
  repeat split.
Qed.

(** C9, amended.  The cooldown wait before a forced restart is a single
    call of [time.sleep] for the remaining cooldown, more than zero and,
    when the clock is not behind [last_restart_time], at most
    [RESTART_COOLDOWN_SEC] seconds; the watchdog is fed earlier in the
    cycle and not from the start of the wait to the reset that follows
    it. *)
Theorem cooldown_wait_is_one_sleep
        cfg iv tank_profile (env : CycleEnv) (st : LoopState) :
  cycle_fails cfg tank_profile env = true ->
  (MAX_CONSECUTIVE_FAILURES <= consecutive_failures st + 1)%Z ->
  (clock env - last_restart_time st < RESTART_COOLDOWN_SEC)%Z ->
  let wait_time := (RESTART_COOLDOWN_SEC - (clock env - last_restart_time st))%Z in
  exists before final,
    fst (cycle cfg iv tank_profile env st)
    = before ++ restart_with_cooldown (clock env) (last_restart_time st) final
    /\ In Feed before
    /\ restart_with_cooldown (clock env) (last_restart_time st) final
       = [Log (CooldownActive wait_time); Sleep (inject_Z wait_time);
          Log final; MachineReset]
    /\ count is_feed
             (restart_with_cooldown (clock env) (last_restart_time st) final)
       = 0%nat
    /\ (0 < wait_time)%Z
    /\ ((last_restart_time st <= clock env)%Z ->
        (wait_time <= RESTART_COOLDOWN_SEC)%Z).
Proof.
  intros Hf Hle Hcool wait_time.
  destruct (failing_cycle_at_ceiling cfg iv tank_profile env st Hf Hle)
    as (before & final & Hcycle & _ & _ & Hfeed).
  exists before, final. rewrite Hcycle.
  rewrite restart_with_cooldown_waiting by exact Hcool.
  repeat split; try exact Hfeed; unfold wait_time; lia.
Qed.

Lemma cooldown_wait_is_one_sleep_witness :
  exists before final,
    fst (cycle reference_tank reference_intervals None
               (sensing SensorNone PublishReturns 45) nine_failures)
    = before ++ restart_with_cooldown 45 0 final
    /\ In Feed before
    /\ restart_with_cooldown 45 0 final
       = [Log (CooldownActive 15); Sleep 15; Log final; MachineReset]
    /\ count is_feed (restart_with_cooldown 45 0 final) = 0%nat
    /\ (0 < 15)%Z
    /\ ((0 <= 45)%Z -> (15 <= RESTART_COOLDOWN_SEC)%Z).
Proof.
  apply (cooldown_wait_is_one_sleep reference_tank reference_intervals None
           (sensing SensorNone PublishReturns 45) nine_failures eq_refl).
  - vm_compute. discriminate.
  - reflexivity.
Defined.

(** ** The publish gate *)

Lemma Qle_bool_inject_Z (a b : Z) :
  Qle_bool (inject_Z a) (inject_Z b) = (a <=? b)%Z.
Proof.
  unfold Qle_bool, inject_Z. simpl. rewrite !Z.mul_1_r. reflexivity.
Qed.

Lemma read_tank_level_events cfg tank_profile rd now :
  count is_sensor_read (fst (read_tank_level cfg tank_profile rd now)) = 1%nat
  /\ count is_publish (fst (read_tank_level cfg tank_profile rd now)) = 0%nat.
Proof.
  unfold read_tank_level.
  destruct rd as [mm | |]; try (split; reflexivity).
  destruct (out_of_range mm); [split; reflexivity |]. cbv zeta.
  destruct tank_profile as [profile |].
  - destruct (depth_to_gallons _ profile);
      destruct (Qlt_bool 0 (capacity_gallons profile)); split; reflexivity.
  - destruct (Qlt_bool 0 (height cfg)); split; reflexivity.
Qed.

Lemma publish_if_due_spec iv (env : CycleEnv) (st : LoopState) (r : Reading) :
  let delivered := publish_due iv env st && broker_takes env in
  count is_publish (fst (publish_if_due iv env st r))
  = (if delivered then 1%nat else 0%nat)
  /\ count is_sensor_read (fst (publish_if_due iv env st r)) = 0%nat
  /\ snd (publish_if_due iv env st r)
     = (if delivered then clock env else last_publish st)
  /\ (forall r', In (MqttPublish r') (fst (publish_if_due iv env st r)) -> r' = r).
Proof.
  unfold publish_if_due, publish_due, broker_takes.
  destruct (Qle_bool (publish iv) (inject_Z (clock env - last_publish st)));
    [| simpl; intuition].
  destruct (first_publish env); simpl;
    try (destruct (mqtt_reinit_ok env); simpl;
         [destruct (second_publish env) |]; simpl);
    intuition; try discriminate; congruence.
Qed.

(** What a cycle with a reading does. *)
Lemma cycle_with_reading cfg iv tank_profile (env : CycleEnv) (st : LoopState)
      (r : Reading) :
  shutdown_requested env = false ->
  wifi_ok env = true ->
  reading_of cfg tank_profile env = Some r ->
  let delivered := publish_due iv env st && broker_takes env in
  exists events,
    cycle cfg iv tank_profile env st
    = (events,
       Continue {| consecutive_failures := 0;
                   last_restart_time := last_restart_time st;
                   last_publish := if delivered then clock env
                                   else last_publish st |})
    /\ In (Log (Level r)) events
    /\ count is_sensor_read events = 1%nat
    /\ count is_publish events = (if delivered then 1%nat else 0%nat)
    /\ (forall r', In (MqttPublish r') events -> r' = r).
Proof.
  intros Hs Hw Hr delivered. unfold cycle. rewrite Hs, Hw. simpl.
  rewrite read_tank_level_reading, Hr.
  destruct (read_tank_level_events cfg tank_profile (sensor env) (stamp env))
    as [Hreads Hpubs].
  assert (Hnopub : forall r', ~ In (MqttPublish r')
                     (fst (read_tank_level cfg tank_profile (sensor env) (stamp env)))).
  { intros r' Hin. unfold count in Hpubs.
    assert (Hf : In (MqttPublish r')
                    (filter is_publish
                       (fst (read_tank_level cfg tank_profile (sensor env) (stamp env)))))
      by (apply filter_In; split; [exact Hin | reflexivity]).
    destruct (filter is_publish _); [contradiction | discriminate]. }
  destruct (publish_if_due_spec iv env st r) as (Hp & Hq & Hat & Hsame).
  destruct (publish_if_due iv env st r) as [pe at_] eqn:E. simpl in *.
  eexists. split; [subst at_; reflexivity |].
  repeat split.
  - right; right; right. apply in_or_app. right. left. reflexivity.
  - change (count is_sensor_read
              ([Feed; GcCollect; WifiCheck true]
               ++ fst (read_tank_level cfg tank_profile (sensor env) (stamp env))
               ++ [Log (Level r)] ++ pe ++ [Feed; Sleep (measurement iv)]) = 1%nat).
    rewrite !count_app, Hreads, Hq. reflexivity.
  - change (count is_publish
              ([Feed; GcCollect; WifiCheck true]
               ++ fst (read_tank_level cfg tank_profile (sensor env) (stamp env))
               ++ [Log (Level r)] ++ pe ++ [Feed; Sleep (measurement iv)])
            = (if delivered then 1%nat else 0%nat)).
    rewrite !count_app, Hpubs, Hp. unfold delivered.
    destruct (publish_due iv env st && broker_takes env); reflexivity.
  - intros r' Hin.
    change (In (MqttPublish r')
              ([Feed; GcCollect; WifiCheck true]
               ++ fst (read_tank_level cfg tank_profile (sensor env) (stamp env))
               ++ [Log (Level r)] ++ pe ++ [Feed; Sleep (measurement iv)])) in Hin.
    rewrite !in_app_iff in Hin.
    destruct Hin as [H | [H | [H | [H | H]]]].
    + simpl in H. intuition discriminate.
    + destruct (Hnopub r' H).
    + simpl in H. intuition discriminate.
    + apply Hsame, H.
    + simpl in H. intuition discriminate.
Qed.

(** ** Publish cadence in steady operation *)

Lemma monitor_loop_from_cons cfg iv tank_profile env rest st :
  monitor_loop_from cfg iv tank_profile (env :: rest) st
  = match cycle cfg iv tank_profile env st with
    | (events, Continue st') =>
        let (events', result) := monitor_loop_from cfg iv tank_profile rest st' in
        (events ++ events', result)
    | stopped => stopped
    end.
Proof. reflexivity. Qed.

Section Cadence.

Variable cfg : TankConfig.
Variable tank_profile : option TankProfile.
Variable mm : Z.

(** The sample [mm] yields a reading. *)
Hypothesis sample_reads :
  forall t, is_some (snd (read_tank_level cfg tank_profile (SensorValue mm) t)) = true.

Local Abbreviation loop := (monitor_loop_from cfg reference_intervals tank_profile).
Local Abbreviation steady := (sensing (SensorValue mm) PublishReturns).

Lemma steady_reading (t : Z) :
  exists r, reading_of cfg tank_profile (steady t) = Some r.
Proof.
  unfold reading_of, sensing. cbn [sensor stamp].
  pose proof (sample_reads t) as H.
  destruct (snd (read_tank_level cfg tank_profile (SensorValue mm) t));
    [eauto | discriminate].
Qed.

Lemma steady_due (t : Z) (st : LoopState) :
  publish_due reference_intervals (steady t) st = (30 <=? t - last_publish st)%Z.
Proof.
  unfold publish_due, reference_intervals, sensing. simpl.
  apply (Qle_bool_inject_Z 30).
Qed.

Lemma steady_cycle (t : Z) (st : LoopState) :
  exists events,
    cycle cfg reference_intervals tank_profile (steady t) st
    = (events,
       Continue {| consecutive_failures := 0;
                   last_restart_time := last_restart_time st;
                   last_publish := if (30 <=? t - last_publish st)%Z then t
                                   else last_publish st |})
    /\ count is_sensor_read events = 1%nat
    /\ count is_publish events
       = (if (30 <=? t - last_publish st)%Z then 1%nat else 0%nat).
Proof.
  destruct (steady_reading t) as [r Hr].
  destruct (cycle_with_reading cfg reference_intervals tank_profile
              (steady t) st r eq_refl eq_refl Hr)
    as (events & Hc & _ & Hreads & Hpubs & _).
  rewrite steady_due in Hc, Hpubs.
  change (broker_takes (steady t)) with true in Hc, Hpubs.
  rewrite andb_true_r in Hc, Hpubs.
  exists events. auto.
Qed.

(** Cycles that come too early after the last publish read the sensor
    and publish nothing. *)
Lemma quiet_cycles (ts : list Z) (st : LoopState) :
  consecutive_failures st = 0%Z ->
  (forall t, In t ts -> (t - last_publish st < 30)%Z) ->
  exists events,
    loop (map steady ts) st = (events, Continue st)
    /\ count is_sensor_read events = length ts
    /\ count is_publish events = 0%nat.
Proof.
  intros Hzero. induction ts as [| t rest IH]; intros Hearly.
  - exists []. repeat split.
  - destruct (steady_cycle t st) as (e1 & Hc & Hr1 & Hp1).
    assert (E : (30 <=? t - last_publish st)%Z = false)
      by (apply Z.leb_gt, Hearly; left; reflexivity).
    rewrite E in Hc, Hp1.
    replace {| consecutive_failures := 0;
               last_restart_time := last_restart_time st;
               last_publish := last_publish st |} with st in Hc
      by (destruct st; simpl in *; congruence).
    destruct IH as (e2 & Hl & Hr2 & Hp2);
      [intros u Hu; apply Hearly; right; exact Hu |].
    exists (e1 ++ e2). cbn [map]. rewrite monitor_loop_from_cons, Hc, Hl.
    rewrite !count_app, Hr1, Hr2, Hp1, Hp2. repeat split.
Qed.

(** One window of six cycles that starts when a publish is due: six
    sensor reads, one message to the broker, and the publish time moves
    to the start of the window. *)
Lemma steady_window_cadence (t0 : Z) (st : LoopState) :
  (30 <= t0 - last_publish st)%Z ->
  exists events,
    loop (steady_window mm t0) st
    = (events,
       Continue {| consecutive_failures := 0;
                   last_restart_time := last_restart_time st;
                   last_publish := t0 |})
    /\ count is_sensor_read events = 6%nat
    /\ count is_publish events = 1%nat.
Proof.
  intros Hdue.
  change (steady_window mm t0)
    with (steady (t0 + 5 * Z.of_nat 0)
          :: map steady (map (fun k => (t0 + 5 * Z.of_nat k)%Z) (seq 1 5))).
  replace (t0 + 5 * Z.of_nat 0)%Z with t0 by (simpl; lia).
  destruct (steady_cycle t0 st) as (e1 & Hc & Hr1 & Hp1).
  assert (E : (30 <=? t0 - last_publish st)%Z = true) by (apply Z.leb_le, Hdue).
  rewrite E in Hc, Hp1.
  set (st1 := {| consecutive_failures := 0;
                 last_restart_time := last_restart_time st;
                 last_publish := t0 |}) in *.
  destruct (quiet_cycles (map (fun k => (t0 + 5 * Z.of_nat k)%Z) (seq 1 5)) st1 eq_refl)
    as (e2 & Hl & Hr2 & Hp2).
  { intros t Hin. apply in_map_iff in Hin as (k & <- & Hk).
    apply in_seq in Hk. change (last_publish st1) with t0. lia. }
  exists (e1 ++ e2).
  rewrite monitor_loop_from_cons, Hc, Hl.
  rewrite !count_app, Hr1, Hr2, Hp1, Hp2. repeat split.
Qed.

Lemma steady_windows_cadence (windows : nat) :
  forall (t0 : Z) (st : LoopState),
    (30 <= t0 - last_publish st)%Z ->
    exists events st',
      loop (steady_windows mm t0 windows) st = (events, Continue st')
      /\ count is_sensor_read events = (6 * windows)%nat
      /\ count is_publish events = windows.
Proof.
  induction windows as [| w IH]; intros t0 st Hdue.
  - exists [], st. repeat split.
  - destruct (steady_window_cadence t0 st Hdue) as (e1 & Hl1 & Hr1 & Hp1).
    set (st1 := {| consecutive_failures := 0;
                   last_restart_time := last_restart_time st;
                   last_publish := t0 |}) in *.
    destruct (IH (t0 + 30)%Z st1) as (e2 & st2 & Hl2 & Hr2 & Hp2);
      [simpl; lia |].
    exists (e1 ++ e2), st2.
    change (steady_windows mm t0 (S w))
      with (steady_window mm t0 ++ steady_windows mm (t0 + 30) w).
    rewrite loop_app, Hl1, Hl2.
    rewrite !count_app, Hr1, Hr2, Hp1, Hp2. repeat split. lia.
Qed.

End Cadence.

(** C8, as stated, does not hold.  A hundred seconds after the last
    publish a cycle computes a reading from a sample of 1000 mm; the
    publish interval of thirty seconds has elapsed, the publish raises
    and the session cannot be rebuilt: nothing reaches the broker. *)
Lemma publish_due_but_not_published :
  let env := sensing (SensorValue 1000) PublishRaises 100 in
  is_some (reading_of reference_tank None env) = true
  /\ publish_due reference_intervals env initial_state = true
  /\ count is_publish
           (fst (cycle reference_tank reference_intervals None env initial_state))
     = 0%nat.
Proof.
  repeat split.
Qed.

(** C8, amended.  In every cycle that produces a reading the reading is
    logged locally, and it is published, once, if and only if the time
    since the last successful publish is at least [publish_interval]
    and the broker takes it, at the first call of [publish_data] or at
    the one retry after a successful [init_mqtt()]; the publish time
    moves to the clock of the cycle exactly then.  With a measurement
    interval of 5 s, a publish interval of 30 s, cycles five seconds
    apart, a sensor that answers and a broker that takes every message,
    each window of six cycles that starts when a publish is due reads
    the sensor six times and sends one message, and so does every
    following window. *)
Theorem publish_gate_and_cadence
        cfg iv tank_profile (env : CycleEnv) (st : LoopState) (r : Reading) :
  shutdown_requested env = false ->
  wifi_ok env = true ->
  reading_of cfg tank_profile env = Some r ->
  (let delivered := publish_due iv env st && broker_takes env in
   exists events,
     cycle cfg iv tank_profile env st
     = (events,
        Continue {| consecutive_failures := 0;
                    last_restart_time := last_restart_time st;
                    last_publish := if delivered then clock env
                                    else last_publish st |})
     /\ In (Log (Level r)) events
     /\ count is_sensor_read events = 1%nat
     /\ count is_publish events = (if delivered then 1%nat else 0%nat)
     /\ (forall r', In (MqttPublish r') events -> r' = r))
  /\ (forall (mm t0 : Z) (st0 : LoopState) (windows : nat),
        (forall t, is_some (snd (read_tank_level cfg tank_profile
                                                 (SensorValue mm) t)) = true) ->
        (30 <= t0 - last_publish st0)%Z ->
        (exists events,
           monitor_loop_from cfg reference_intervals tank_profile
                             (steady_window mm t0) st0
           = (events,
              Continue {| consecutive_failures := 0;
                          last_restart_time := last_restart_time st0;
                          last_publish := t0 |})
           /\ count is_sensor_read events = 6%nat
           /\ count is_publish events = 1%nat)
        /\ (exists events st',
              monitor_loop_from cfg reference_intervals tank_profile
                                (steady_windows mm t0 windows) st0
              = (events, Continue st')
              /\ count is_sensor_read events = (6 * windows)%nat
              /\ count is_publish events = windows)).
Proof.
  intros Hs Hw Hr. split.
  - apply cycle_with_reading; assumption.
  - intros mm t0 st0 windows Hreads Hdue. split.
    + apply steady_window_cadence; assumption.
    + apply steady_windows_cadence; assumption.
Qed.

Lemma publish_gate_and_cadence_witness :
  exists events st',
    monitor_loop reference_tank reference_intervals None
                 (steady_windows 1000 30 4)
    = (events, Continue st')
    /\ count is_sensor_read events = 24%nat
    /\ count is_publish events = 4%nat.
Proof.
  destruct (publish_gate_and_cadence reference_tank reference_intervals None
              (sensing (SensorValue 1000) PublishReturns 30) initial_state
              (mkReading 1000.0 39.37 4.63 10.5 30 None)
              eq_refl eq_refl eq_refl) as [_ H].
  apply (H 1000%Z 30%Z initial_state 4%nat).
  - intros t. reflexivity.
  - vm_compute. discriminate.
Defined.

(** Ten cycles in a row over a nearly empty tank, each with a sample
    inside the window, end in a device reset. *)
Lemma nearly_empty_tank_resets_device :
  snd (monitor_loop reference_tank reference_intervals
                    (Some TANK_275_VERTICAL_OVAL)
                    (map (sensing (SensorValue 1105) PublishReturns)
                         [60; 65; 70; 75; 80; 85; 90; 95; 100; 105]%Z))
  = DeviceReset.
Proof.
  reflexivity.
Qed.

(** ** Calibration *)

(** C10.  When fewer valid readings were collected than half the
    requested number, [calibrate_empty] returns [False] and the
    configuration, in memory and on file, is the one it started with:
    [update_calibration_offset] is not reached. *)
Theorem calibrate_empty_too_few_readings
        (num_readings : Z) (sensor_at : nat -> sensor_read) (save_ok : bool)
        (store : ConfigStore) :
  (Z.of_nat (length (collect_readings num_readings sensor_at)) < num_readings / 2)%Z ->
  exists events,
    calibrate_empty num_readings sensor_at save_ok store
    = (events, Returned false, store)
    /\ ~ In (Log CalibrationSaved) events
    /\ ~ In (Log CalibrationSaveFailed) events.
Proof.
  intros Hfew. unfold calibrate_empty.
  apply Z.ltb_lt in Hfew. rewrite Hfew.
  eexists. split; [reflexivity |].
  assert (Hstep : forall rd m, In (Log m) (calibration_step rd) ->
                               m <> CalibrationSaved /\ m <> CalibrationSaveFailed).
  { intros rd m. unfold calibration_step.
    destruct rd as [d | |]; [destruct (0 <? d)%Z | |]; simpl;
      intros H; decompose [or] H; try discriminate; try contradiction;
      match goal with E : Log _ = Log _ |- _ => inversion E end;
      split; discriminate. }
  split; intros Hin; apply in_app_or in Hin as [Hin | Hin].
  - apply in_flat_map in Hin as (i & _ & Hi).
    destruct (Hstep _ _ Hi) as [Hne _]. apply Hne. reflexivity.
  - simpl in Hin. intuition discriminate.
  - apply in_flat_map in Hin as (i & _ & Hi).
    destruct (Hstep _ _ Hi) as [_ Hne]. apply Hne. reflexivity.
  - simpl in Hin. intuition discriminate.
Qed.

Lemma calibrate_empty_too_few_readings_witness :
  exists events,
    calibrate_empty 10 four_answers true reference_store
    = (events, Returned false, reference_store)
    /\ ~ In (Log CalibrationSaved) events
    /\ ~ In (Log CalibrationSaveFailed) events.
Proof.
  apply (calibrate_empty_too_few_readings 10 four_answers true reference_store).
  reflexivity.
Defined.

(** With enough readings the offset in memory is replaced, also when
    writing the file fails. *)
Lemma calibrate_empty_enough_readings :
  snd (calibrate_empty 10 (fun _ => SensorValue 1100) false reference_store)
  <> reference_store.
Proof.
  vm_compute. intros H. inversion H.
Qed.

(* ================================================================= *)
(** * Part III: further properties of the code *)
(* ================================================================= *)

(** ** tank_profiles.py: table points, ranges, the inverse *)

Lemma find_bracket_no_error (x : Q) (xt yt : list Q) (idxs : list nat) :
  length yt = length xt ->
  (forall i, In i idxs -> (i + 1 < length xt)%nat) ->
  find_bracket x xt yt idxs <> IndexError.
Proof.
  intros Hlen. induction idxs as [| i rest IH]; intros Hin; simpl.
  - discriminate.
  - assert (Hi : (i + 1 < length xt)%nat) by (apply Hin; left; reflexivity).
    assert (Hrest : forall j, In j rest -> (j + 1 < length xt)%nat)
      by (intros j Hj; apply Hin; right; exact Hj).
    destruct (nth_error xt i) as [x0 |] eqn:E0.
    2:{ apply nth_error_None in E0. lia. }
    destruct (Qle_bool x0 x); [| auto].
    destruct (nth_error xt (i + 1)) as [x1 |] eqn:E1.
    2:{ apply nth_error_None in E1. lia. }
    destruct (Qle_bool x x1); [| auto].
    destruct (nth_error yt i) as [y0 |] eqn:F0.
    2:{ apply nth_error_None in F0. lia. }
    destruct (nth_error yt (i + 1)) as [y1 |] eqn:F1.
    2:{ apply nth_error_None in F1. lia. }
    discriminate.
Qed.

Lemma bracket_range_in (table : list Q) (i : nat) :
  In i (bracket_range table) -> (i + 1 < length table)%nat.
Proof. unfold bracket_range. intros H. apply in_seq in H. lia. Qed.

Lemma last_item_defined (table : list Q) :
  table <> [] -> exists z, last_item table = Some z.
Proof.
  intros H. destruct table as [| a t]; [contradiction |].
  apply (last_item_nth (a :: t) 0 a). reflexivity.
Qed.

(** X1.  When the two tables have one length and are not empty, neither
    conversion raises [IndexError], for any argument and whatever the
    order of the entries. *)
Theorem conversions_never_raise (p : TankProfile) (x : Q) :
  length (depth_inches p) = length (gallons p) ->
  depth_inches p <> [] ->
  depth_to_gallons x p <> IndexError /\ gallons_to_depth x p <> IndexError.
Proof.
  intros Hlen Hne.
  assert (Hne' : gallons p <> [])
    by (intros E; rewrite E in Hlen; destruct (depth_inches p);
        [contradiction | discriminate]).
  destruct (last_item_defined _ Hne) as [dmax Hd].
  destruct (last_item_defined _ Hne') as [gmax Hg].
  unfold depth_to_gallons, gallons_to_depth. rewrite Hd, Hg. split.
  - destruct (Qle_bool x 0); [discriminate |].
    destruct (Qle_bool dmax x); [discriminate |].
    apply find_bracket_no_error; [symmetry; exact Hlen | apply bracket_range_in].
  - destruct (Qle_bool x 0); [discriminate |].
    destruct (Qle_bool gmax x); [discriminate |].
    apply find_bracket_no_error; [exact Hlen | apply bracket_range_in].
Qed.

Lemma conversions_never_raise_witness :
  depth_to_gallons (1 # 2) TANK_275_VERTICAL_OVAL <> IndexError
  /\ gallons_to_depth (1 # 2) TANK_275_VERTICAL_OVAL <> IndexError.
Proof.
  apply (conversions_never_raise TANK_275_VERTICAL_OVAL (1 # 2)).
  - reflexivity.
  - simpl. discriminate.
Defined.





Lemma depth_to_gallons_bounds (p : TankProfile) (d v gmax : Q) :
  well_formed_b p = true ->
  depth_to_gallons d p = Value v ->
  last_item (gallons p) = Some gmax ->
  0 <= v /\ v <= gmax.
Proof.
  intros Hwf Hv Hg. apply well_formed_b_sound in Hwf.
  destruct (depth_defined p 0) as [d0 Hd0];
    [pose proof (wf_points p Hwf); lia |].
  assert (Hout : d <= 0 \/ d0 <= d).
  { destruct (Qlt_le_dec 0 d) as [Hpos | Hneg]; [| left; exact Hneg].
    destruct (Qlt_le_dec d d0) as [Hgap | Hok]; [| right; exact Hok].
    rewrite (depth_to_gallons_gap p d d0 Hwf Hd0 Hpos Hgap) in Hv. discriminate. }
  destruct (depth_to_gallons_defined p Hwf d0 Hd0 d Hout) as (v' & E & Hat).
  rewrite Hv in E. inversion E; subst v'. split.
  - apply (volume_at_nonneg p Hwf d v Hat).
  - apply (volume_at_le_last p Hwf d v gmax Hat Hg).
Qed.



(** X5.  The inverse conversion of a well-formed profile: zero at or
    below zero gallons, the last table depth at or above the last
    volume, and [None] for a volume strictly between zero and the first
    volume of the table. *)
Theorem gallons_to_depth_edges (p : TankProfile) (g g0 gmax dmax : Q) :
  well_formed_b p = true ->
  nth_error (gallons p) 0 = Some g0 ->
  last_item (gallons p) = Some gmax ->
  last_item (depth_inches p) = Some dmax ->
  (g <= 0 -> gallons_to_depth g p = Value 0)
  /\ (0 < g -> gmax <= g -> gallons_to_depth g p = Value dmax)
  /\ (0 < g -> g < g0 -> gallons_to_depth g p = NoneValue).
Proof.
  intros Hwf Hg0 Hgmax Hdmax. apply well_formed_b_sound in Hwf.
  pose proof (wf_volumes p Hwf) as Hvol.
  unfold gallons_to_depth. rewrite Hgmax, Hdmax. repeat split.
  - intros Hle. rewrite (Qle_bool_true _ _ Hle). reflexivity.
  - intros Hpos Hsat. rewrite Qle_bool_false by lra.
    rewrite (Qle_bool_true _ _ Hsat). reflexivity.
  - intros Hpos Hgap. rewrite Qle_bool_false by lra.
    pose proof (volume_le_last p Hwf 0 g0 gmax Hg0 Hgmax).
    rewrite Qle_bool_false by lra.
    apply find_bracket_below.
    + intros j u Hu.
      assert (g0 <= u)
        by (apply (non_decreasing_nth (gallons p) 0 j); auto; lia).
      lra.
    + unfold bracket_range. lia.
Qed.

Lemma gallons_to_depth_edges_witness :
  gallons_to_depth 1 TANK_275_VERTICAL_OVAL = NoneValue.
Proof.
  apply (gallons_to_depth_edges TANK_275_VERTICAL_OVAL 1 2 275 44);
    reflexivity.
Defined.

(** X6.  For a well-formed profile and a volume strictly between two
    adjacent table volumes, converting the volume to a depth and the
    depth back to a volume returns the volume, exactly in rational
    arithmetic. *)
Theorem depth_to_gallons_round_trip
        (p : TankProfile) (i : nat) (g d0 d1 g0 g1 : Q) :
  well_formed_b p = true ->
  nth_error (depth_inches p) i = Some d0 ->
  nth_error (depth_inches p) (S i) = Some d1 ->
  nth_error (gallons p) i = Some g0 ->
  nth_error (gallons p) (S i) = Some g1 ->
  g0 < g -> g < g1 ->
  exists r v,
    gallons_to_depth g p = Value r
    /\ depth_to_gallons r p = Value v
    /\ v == g.
Proof.
  intros Hwf Hd0 Hd1 Hg0 Hg1 Hlo Hhi.
  apply well_formed_b_sound in Hwf.
  pose proof (wf_depths p Hwf) as Hasc.
  assert (Hd : d0 < d1)
    by (apply (ascending_nth (depth_inches p) i (S i)); auto).
  assert (Hg : g0 < g1) by lra.
  exists (linear_interpolate g g0 g1 d0 d1).
  exists (linear_interpolate (linear_interpolate g g0 g1 d0 d1) d0 d1 g0 g1).
  split; [| split].
  - apply (gallons_to_depth_inside p i); assumption.
  - destruct (linear_interpolate_strict g g0 g1 d0 d1 Hg Hd Hlo Hhi).
    apply (depth_to_gallons_inside p i); assumption.
  - apply linear_interpolate_inverse; assumption.
Qed.

Lemma depth_to_gallons_round_trip_witness :
  exists r v,
    gallons_to_depth 140 TANK_275_VERTICAL_OVAL = Value r
    /\ depth_to_gallons r TANK_275_VERTICAL_OVAL = Value v
    /\ v == 140.
Proof.
  apply (depth_to_gallons_round_trip TANK_275_VERTICAL_OVAL 21 140
           22 23 137 144);
    reflexivity.
Defined.

(** ** read_tank_level: clamping, rounding, percentage *)

Lemma Qlt_bool_false_iff (a b : Q) : Qlt_bool a b = false <-> b <= a.
Proof.
  unfold Qlt_bool. rewrite negb_false_iff. apply Qle_bool_iff.
Qed.

Lemma py_min_spec (a b : Q) :
  py_min a b <= a /\ py_min a b <= b /\ (py_min a b = a \/ py_min a b = b).
Proof.
  unfold py_min. destruct (Qlt_bool b a) eqn:E.
  - apply Qlt_bool_iff in E. repeat split; auto; lra.
  - apply Qlt_bool_false_iff in E. repeat split; auto; lra.
Qed.

Lemma py_max_spec (a b : Q) :
  a <= py_max a b /\ b <= py_max a b /\ (py_max a b = a \/ py_max a b = b).
Proof.
  unfold py_max. destruct (Qlt_bool a b) eqn:E.
  - apply Qlt_bool_iff in E. repeat split; auto; lra.
  - apply Qlt_bool_false_iff in E. repeat split; auto; lra.
Qed.

Lemma liquid_depth_clamped (cfg : TankConfig) (mm : Z) :
  (empty_level cfg <= height cfg ->
   empty_level cfg <= liquid_depth_of cfg mm <= height cfg)
  /\ (height cfg < empty_level cfg -> liquid_depth_of cfg mm = empty_level cfg).
Proof.
  unfold liquid_depth_of.
  destruct (py_min_spec (raw_depth cfg mm) (height cfg)) as (_ & Hmin & _).
  destruct (py_max_spec (empty_level cfg) (py_min (raw_depth cfg mm) (height cfg)))
    as (Hlo & _ & Hcase).
  split.
  - intros Hle. split; [exact Hlo |].
    destruct Hcase as [-> | ->]; assumption.
  - intros Hlt. unfold py_max.
    rewrite (proj2 (Qlt_bool_false_iff _ _)); [reflexivity | lra].
Qed.

Lemma round_half_even_floor (x : Q) :
  (Qfloor x <= round_half_even x <= Qfloor x + 1)%Z.
Proof.
  unfold round_half_even.
  destruct (Qlt_bool (x - inject_Z (Qfloor x)) (1 # 2)); [lia |].
  destruct (Qlt_bool (1 # 2) (x - inject_Z (Qfloor x))); [lia |].
  destruct (Z.even (Qfloor x)); lia.
Qed.

Lemma round_half_even_mono (x y : Q) :
  x <= y -> (round_half_even x <= round_half_even y)%Z.
Proof.
  intros Hle. pose proof (Qfloor_resp_le x y Hle) as Hf.
  pose proof (round_half_even_floor x) as Hx.
  pose proof (round_half_even_floor y) as Hy.
  destruct (Z.eq_dec (Qfloor x) (Qfloor y)) as [E | NE]; [| lia].
  unfold round_half_even in *. rewrite <- E in *.
  destruct (Qlt_bool (x - inject_Z (Qfloor x)) (1 # 2)) eqn:A1; [lia |].
  apply Qlt_bool_false_iff in A1.
  destruct (Qlt_bool (y - inject_Z (Qfloor x)) (1 # 2)) eqn:B1.
  { apply Qlt_bool_iff in B1. lra. }
  destruct (Qlt_bool (1 # 2) (x - inject_Z (Qfloor x))) eqn:A2.
  { apply Qlt_bool_iff in A2.
    rewrite (proj2 (Qlt_bool_iff _ _)) by lra. lia. }
  destruct (Qlt_bool (1 # 2) (y - inject_Z (Qfloor x))); [| lia].
  destruct (Z.even (Qfloor x)); lia.
Qed.

Lemma scale_pos (n : nat) : 0 < inject_Z (10 ^ Z.of_nat n).
Proof.
  assert (0 < 10 ^ Z.of_nat n)%Z by (apply Z.pow_pos_nonneg; lia).
  unfold Qlt. simpl. lia.
Qed.

(** Rounding keeps the order. *)
Lemma py_round_mono (x y : Q) (n : nat) :
  x <= y -> py_round x n <= py_round y n.
Proof.
  intros Hle. unfold py_round.
  pose proof (scale_pos n) as Hs.
  set (s := inject_Z (10 ^ Z.of_nat n)) in *.
  assert (Hxy : x * s <= y * s) by (apply Qmult_le_compat_r; lra).
  apply round_half_even_mono in Hxy.
  unfold Qdiv. apply Qmult_le_compat_r.
  - unfold Qle. simpl. lia.
  - apply Qlt_le_weak, Qinv_lt_0_compat, Hs.
Qed.

(** The reading carries the rounded clamped depth. *)
Lemma reading_level cfg tank_profile (mm now : Z) events (r : Reading) :
  read_tank_level cfg tank_profile (SensorValue mm) now = (events, Some r) ->
  level_inches r = py_round (liquid_depth_of cfg mm) 2.
Proof.
  unfold read_tank_level, liquid_depth_of, raw_depth.
  destruct (out_of_range mm); [discriminate |]. cbv zeta.
  destruct tank_profile as [p |].
  - destruct (depth_to_gallons _ p);
      destruct (Qlt_bool 0 (capacity_gallons p));
      intros H; inversion H; reflexivity.
  - destruct (Qlt_bool 0 (height cfg)); intros H; inversion H; reflexivity.
Qed.

(** X7.  The depth of a reading is constrained to the interval from the
    empty-level floor to the tank height when the floor is not above
    the height: the reading carries that depth rounded to two decimals.
    When the floor is above the height, the depth is the floor. *)
Theorem reading_depth_is_clamped
        cfg tank_profile (mm now : Z) events (r : Reading) :
  read_tank_level cfg tank_profile (SensorValue mm) now = (events, Some r) ->
  level_inches r = py_round (liquid_depth_of cfg mm) 2
  /\ (empty_level cfg <= height cfg ->
      empty_level cfg <= liquid_depth_of cfg mm <= height cfg
      /\ py_round (empty_level cfg) 2 <= level_inches r
         <= py_round (height cfg) 2)
  /\ (height cfg < empty_level cfg ->
      level_inches r = py_round (empty_level cfg) 2).
Proof.
  intros Hread. pose proof (reading_level _ _ _ _ _ _ Hread) as Hlevel.
  destruct (liquid_depth_clamped cfg mm) as [Hin Hout].
  split; [exact Hlevel |]. split.
  - intros Hle. destruct (Hin Hle) as [Hlo Hhi].
    split; [split; assumption |].
    rewrite Hlevel. split; apply py_round_mono; assumption.
  - intros Hlt. rewrite Hlevel, (Hout Hlt). reflexivity.
Qed.

Lemma reading_depth_is_clamped_witness :
  exists r,
    snd (read_tank_level reference_tank None (SensorValue 1000) 30) = Some r
    /\ level_inches r = py_round (liquid_depth_of reference_tank 1000) 2.
Proof.
  eexists. split; [reflexivity |].
  exact (proj1 (reading_depth_is_clamped reference_tank None 1000 30 _ _ eq_refl)).
Defined.

Lemma percent_on_scale (a b : Q) :
  0 <= a -> a <= b -> 0 < b -> 0 <= a / b * 100 <= 100.
Proof.
  intros Ha Hab Hb.
  assert (H0 : 0 <= a / b) by (apply Qle_shift_div_l; lra).
  assert (H1 : a / b <= 1) by (apply Qle_shift_div_r; lra).
  set (x := a / b) in *. lra.
Qed.

Lemma py_round_percent (x : Q) :
  0 <= x <= 100 -> 0 <= py_round x 1 <= 100.
Proof.
  intros [Hlo Hhi].
  pose proof (py_round_mono 0 x 1 Hlo) as A.
  pose proof (py_round_mono x 100 1 Hhi) as B.
  assert (E0 : py_round 0 1 == 0) by (vm_compute; reflexivity).
  assert (E1 : py_round 100 1 == 100) by (vm_compute; reflexivity).
  lra.
Qed.

(** The percentage before rounding: the volume over the capacity with a
    profile, the depth over the height without one, zero when the
    divisor is not positive. *)
Lemma reading_percentage cfg tank_profile (mm now : Z) events (r : Reading) :
  read_tank_level cfg tank_profile (SensorValue mm) now = (events, Some r) ->
  exists pct,
    level_percentage r = py_round pct 1
    /\ match tank_profile with
       | None =>
           pct = if Qlt_bool 0 (height cfg)
                 then liquid_depth_of cfg mm / height cfg * 100 else 0
       | Some p =>
           match depth_to_gallons (liquid_depth_of cfg mm) p with
           | Value v =>
               pct = if Qlt_bool 0 (capacity_gallons p)
                     then v / capacity_gallons p * 100 else 0
           | NoneValue => pct = 0
           | IndexError => False
           end
       end.
Proof.
  unfold read_tank_level, liquid_depth_of, raw_depth.
  destruct (out_of_range mm); [discriminate |]. cbv zeta.
  destruct tank_profile as [p |].
  - destruct (depth_to_gallons _ p);
      destruct (Qlt_bool 0 (capacity_gallons p));
      intros H; inversion H; simpl; eauto.
  - destruct (Qlt_bool 0 (height cfg)); intros H; inversion H; simpl; eauto.
Qed.

(** X8.  The percentage of a reading lies between 0 and 100: in linear
    mode when the empty-level floor lies between zero and the tank
    height; with a profile when its tables are well formed and its
    capacity is at least the last table volume. *)
Theorem reading_percentage_on_scale
        cfg tank_profile (mm now : Z) events (r : Reading) :
  on_scale cfg tank_profile = true ->
  read_tank_level cfg tank_profile (SensorValue mm) now = (events, Some r) ->
  0 <= level_percentage r <= 100.
Proof.
  intros Hscale Hread.
  destruct (reading_percentage _ _ _ _ _ _ Hread) as (pct & -> & Hpct).
  apply py_round_percent.
  destruct tank_profile as [p |]; simpl in Hscale.
  - apply andb_true_iff in Hscale as [Hwf Hcap].
    destruct (last_item (gallons p)) as [gmax |] eqn:Hg; [| discriminate].
    apply Qle_bool_iff in Hcap.
    destruct (depth_to_gallons (liquid_depth_of cfg mm) p) as [v | |] eqn:Hv;
      [| subst pct; lra | contradiction].
    destruct (depth_to_gallons_bounds p _ v gmax Hwf Hv Hg) as [Hlo Hhi].
    destruct (Qlt_bool 0 (capacity_gallons p)) eqn:Hc; subst pct; [| lra].
    apply Qlt_bool_iff in Hc. apply percent_on_scale; lra.
  - apply andb_true_iff in Hscale as [H0 HE].
    apply Qle_bool_iff in H0. apply Qle_bool_iff in HE.
    destruct (liquid_depth_clamped cfg mm) as [Hin _].
    destruct (Hin HE) as [Hlo Hhi].
    destruct (Qlt_bool 0 (height cfg)) eqn:Hc; subst pct; [| lra].
    apply Qlt_bool_iff in Hc. apply percent_on_scale; lra.
Qed.

Lemma reading_percentage_on_scale_witness :
  0 <= 55.7 <= 100.
Proof.
  apply (reading_percentage_on_scale reference_tank (Some TANK_275_VERTICAL_OVAL)
           500 30 [Feed; SensorRead (SensorValue 500)]
           (mkReading 500.0 19.69 24.31 55.7 30 (Some 153.2)));
    reflexivity.
Defined.

(** X9.  Without a tank profile [read_tank_level] returns a reading
    exactly when the sensor returns an integer above 0 and at most
    8000; with or without a profile, a reading comes from such a sample
    only. *)
Theorem reading_iff_sample_in_window cfg tank_profile (rd : sensor_read) (now : Z) :
  (is_some (snd (read_tank_level cfg tank_profile rd now)) = true ->
   exists mm, rd = SensorValue mm /\ (0 < mm <= 8000)%Z)
  /\ ((exists mm, rd = SensorValue mm /\ (0 < mm <= 8000)%Z) ->
      is_some (snd (read_tank_level cfg None rd now)) = true).
Proof.
  split.
  - destruct (read_tank_level cfg tank_profile rd now) as [events [r |]] eqn:E;
      [| discriminate].
    intros _. apply (reading_from_valid_sample cfg tank_profile rd now events r E).
  - intros (mm & -> & Hwin).
    destruct (linear_mode_reads cfg mm now Hwin) as [r Hr]. rewrite Hr. reflexivity.
Qed.

Lemma reading_iff_sample_in_window_witness :
  is_some (snd (read_tank_level reference_tank None (SensorValue 500) 30)) = true
  /\ exists mm, SensorValue 500 = SensorValue mm /\ (0 < mm <= 8000)%Z.
Proof.
  destruct (reading_iff_sample_in_window reference_tank None (SensorValue 500) 30)
    as [Hfrom Hto].
  assert (H : is_some (snd (read_tank_level reference_tank None (SensorValue 500) 30))
              = true).
  { apply Hto. exists 500%Z. split; [reflexivity | lia]. }
  split; [exact H | exact (Hfrom H)].
Defined.

(** X10.  With a well-formed profile of positive capacity, a sample
    inside the window yields a reading exactly when the clamped depth is
    at most zero or at least the first table depth; for a depth strictly
    between the two the reading is lost. *)
Theorem profile_reading_iff_outside_gap
        cfg (p : TankProfile) (first_depth : Q) (mm now : Z) :
  well_formed_b p = true ->
  0 < capacity_gallons p ->
  nth_error (depth_inches p) 0 = Some first_depth ->
  (0 < mm <= 8000)%Z ->
  is_some (snd (read_tank_level cfg (Some p) (SensorValue mm) now))
  = Qle_bool (liquid_depth_of cfg mm) 0
    || Qle_bool first_depth (liquid_depth_of cfg mm).
Proof.
  intros Hwf Hcap Hfirst Hwin. apply well_formed_b_sound in Hwf.
  rewrite (profile_mode_reads cfg p mm now Hwin). cbv zeta.
  fold (raw_depth cfg mm). fold (liquid_depth_of cfg mm).
  set (d := liquid_depth_of cfg mm).
  destruct (Qle_bool d 0) eqn:E0.
  - apply Qle_bool_iff in E0.
    destruct (depth_to_gallons_defined p Hwf first_depth Hfirst d (or_introl E0))
      as (v & -> & _). reflexivity.
  - destruct (Qle_bool first_depth d) eqn:E1.
    + apply Qle_bool_iff in E1.
      destruct (depth_to_gallons_defined p Hwf first_depth Hfirst d (or_intror E1))
        as (v & -> & _). reflexivity.
    + assert (Hpos : 0 < d)
        by (apply Qlt_bool_iff; unfold Qlt_bool; rewrite E0; reflexivity).
      assert (Hgap : d < first_depth)
        by (apply Qlt_bool_iff; unfold Qlt_bool; rewrite E1; reflexivity).
      rewrite (depth_to_gallons_gap p d first_depth Hwf Hfirst Hpos Hgap).
      rewrite (proj2 (Qlt_bool_iff _ _) Hcap). reflexivity.
Qed.

Lemma profile_reading_iff_outside_gap_witness :
  is_some (snd (read_tank_level reference_tank (Some TANK_275_VERTICAL_OVAL)
                                (SensorValue 1105) 30))
  = false.
Proof.
  rewrite (profile_reading_iff_outside_gap reference_tank
             TANK_275_VERTICAL_OVAL 1 1105 30 eq_refl eq_refl eq_refl).
  - reflexivity.
  - lia.
Defined.

(** ** monitor_loop: what every execution keeps *)

Lemma restart_with_cooldown_publishes_nothing (now last : Z) (final : message) :
  count is_publish (restart_with_cooldown now last final) = 0%nat.
Proof.
  unfold restart_with_cooldown.
  destruct (now - last <? RESTART_COOLDOWN_SEC)%Z; reflexivity.
Qed.

Lemma failing_cycle_publishes_nothing cfg iv tank_profile env st :
  cycle_fails cfg tank_profile env = true ->
  count is_publish (fst (cycle cfg iv tank_profile env st)) = 0%nat.
Proof.
  unfold cycle_fails, cycle. intros Hf.
  apply andb_true_iff in Hf as [Hs Hf]. apply negb_true_iff in Hs. rewrite Hs.
  destruct (wifi_ok env); simpl in *.
  - rewrite read_tank_level_reading.
    destruct (read_tank_level_events cfg tank_profile (sensor env) (stamp env))
      as [_ Hpubs].
    destruct (reading_of cfg tank_profile env) as [r |]; [discriminate |].
    destruct (MAX_CONSECUTIVE_FAILURES <=? consecutive_failures st + 1)%Z; simpl.
    + change (count is_publish
                ([Feed; GcCollect; WifiCheck true]
                 ++ fst (read_tank_level cfg tank_profile (sensor env) (stamp env))
                 ++ [Log (SensorReadFailed (consecutive_failures st + 1))]
                 ++ restart_with_cooldown (clock env) (last_restart_time st)
                                          TooManySensorFailures) = 0%nat).
      rewrite !count_app, Hpubs, restart_with_cooldown_publishes_nothing.
      reflexivity.
    + change (count is_publish
                ([Feed; GcCollect; WifiCheck true]
                 ++ fst (read_tank_level cfg tank_profile (sensor env) (stamp env))
                 ++ [Log (SensorReadFailed (consecutive_failures st + 1))]
                 ++ [Feed; Sleep (measurement iv)]) = 0%nat).
      rewrite !count_app, Hpubs. reflexivity.
  - destruct (MAX_CONSECUTIVE_FAILURES <=? consecutive_failures st + 1)%Z; simpl.
    + change (count is_publish
                ([Feed; GcCollect; WifiCheck false]
                 ++ restart_with_cooldown (clock env) (last_restart_time st)
                                          TooManyConsecutiveFailures) = 0%nat).
      rewrite count_app, restart_with_cooldown_publishes_nothing. reflexivity.
    + reflexivity.
Qed.

(** A cycle either stops at a shutdown request, or fails, or yields a
    reading. *)
Lemma cycle_kind cfg tank_profile (env : CycleEnv) :
  shutdown_requested env = true
  \/ cycle_fails cfg tank_profile env = true
  \/ cycle_succeeds cfg tank_profile env = true.
Proof.
  unfold cycle_fails, cycle_succeeds.
  destruct (shutdown_requested env); [left; reflexivity | right].
  destruct (wifi_ok env); destruct (is_some (reading_of cfg tank_profile env));
    simpl; auto.
Qed.

(** What each kind of cycle does to the loop state. *)
Lemma cycle_cases cfg iv tank_profile (env : CycleEnv) (st : LoopState) :
  match snd (cycle cfg iv tank_profile env st) with
  | LoopExit => shutdown_requested env = true
  | DeviceReset =>
      cycle_fails cfg tank_profile env = true
      /\ (MAX_CONSECUTIVE_FAILURES <= consecutive_failures st + 1)%Z
  | Continue st' =>
      last_restart_time st' = last_restart_time st
      /\ ((cycle_fails cfg tank_profile env = true
           /\ (consecutive_failures st + 1 < MAX_CONSECUTIVE_FAILURES)%Z
           /\ consecutive_failures st' = (consecutive_failures st + 1)%Z
           /\ last_publish st' = last_publish st
           /\ count is_publish (fst (cycle cfg iv tank_profile env st)) = 0%nat)
          \/ (cycle_succeeds cfg tank_profile env = true
              /\ consecutive_failures st' = 0%Z
              /\ ((count is_publish (fst (cycle cfg iv tank_profile env st)) = 0%nat
                   /\ last_publish st' = last_publish st)
                  \/ (count is_publish (fst (cycle cfg iv tank_profile env st)) = 1%nat
                      /\ publish_due iv env st = true
                      /\ last_publish st' = clock env))))
  end.
Proof.
  destruct (cycle_kind cfg tank_profile env) as [Hs | [Hf | Hok]].
  - unfold cycle. rewrite Hs. reflexivity.
  - destruct (Z_lt_le_dec (consecutive_failures st + 1) MAX_CONSECUTIVE_FAILURES)
      as [Hlt | Hge].
    + destruct (failing_cycle_below cfg iv tank_profile env st Hf Hlt) as [E _].
      rewrite E. simpl. split; [reflexivity |]. left.
      repeat split; auto.
      apply failing_cycle_publishes_nothing, Hf.
    + destruct (failing_cycle_at_ceiling cfg iv tank_profile env st Hf Hge)
        as (before & final & E & _).
      rewrite E. simpl. auto.
  - pose proof Hok as Hok'. unfold cycle_succeeds in Hok'.
    apply andb_true_iff in Hok' as [Hsw Hr].
    apply andb_true_iff in Hsw as [Hs Hw]. apply negb_true_iff in Hs.
    destruct (reading_of cfg tank_profile env) as [r |] eqn:Er; [| discriminate].
    destruct (cycle_with_reading cfg iv tank_profile env st r Hs Hw Er)
      as (events & E & _ & _ & Hp & _).
    rewrite E. simpl. split; [reflexivity |]. right.
    split; [exact Hok |]. split; [reflexivity |].
    destruct (publish_due iv env st && broker_takes env) eqn:D.
    + right. apply andb_true_iff in D as [D _]. auto.
    + left. auto.
Qed.

(** X11.  From a state whose failure counter lies between 0 and 9, as
    the initial state does, the counter lies between 0 and 9 whenever
    the loop goes on to another cycle. *)
Theorem failure_counter_in_range
        cfg iv tank_profile (envs : list CycleEnv) (st st' : LoopState) :
  (0 <= consecutive_failures st < MAX_CONSECUTIVE_FAILURES)%Z ->
  snd (monitor_loop_from cfg iv tank_profile envs st) = Continue st' ->
  (0 <= consecutive_failures st' < MAX_CONSECUTIVE_FAILURES)%Z.
Proof.
  revert st. induction envs as [| env rest IH]; intros st Hrange Hrun.
  - simpl in Hrun. inversion Hrun; subst. exact Hrange.
  - rewrite monitor_loop_from_cons in Hrun.
    pose proof (cycle_cases cfg iv tank_profile env st) as Hc.
    destruct (cycle cfg iv tank_profile env st) as [events res].
    destruct res as [st1 | |]; try discriminate.
    simpl in Hc.
    destruct (monitor_loop_from cfg iv tank_profile rest st1) as [e' r'] eqn:E.
    simpl in Hrun. apply (IH st1).
    + destruct Hc as [_ [(_ & Hlt & Hcf & _) | (_ & Hcf & _)]];
        rewrite Hcf; unfold MAX_CONSECUTIVE_FAILURES in *; lia.
    + rewrite E. exact Hrun.
Qed.

Lemma failure_counter_in_range_witness :
  (0 <= 9 < MAX_CONSECUTIVE_FAILURES)%Z.
Proof.
  apply (failure_counter_in_range reference_tank reference_intervals None
           (map wifi_down [0; 5; 10; 15; 20; 25; 30; 35; 40]%Z)
           initial_state nine_failures).
  - unfold MAX_CONSECUTIVE_FAILURES. simpl. lia.
  - reflexivity.
Defined.

(** X12.  The loop never assigns [last_restart_time]: in every
    execution it stays 0, so the restart block waits exactly when the
    clock reads less than 60, and then for 60 minus the clock. *)
Theorem cooldown_counts_from_clock_zero
        cfg iv tank_profile (envs : list CycleEnv) (st' : LoopState) :
  snd (monitor_loop cfg iv tank_profile envs) = Continue st' ->
  last_restart_time st' = 0%Z
  /\ forall now final,
      restart_with_cooldown now (last_restart_time st') final
      = if (now <? 60)%Z
        then [Log (CooldownActive (60 - now)); Sleep (inject_Z (60 - now));
              Log final; MachineReset]
        else [Log final; MachineReset].
Proof.
  intros Hrun.
  assert (H0 : last_restart_time st' = 0%Z)
    by (apply (loop_last_restart_time cfg iv tank_profile envs initial_state st' Hrun)).
  split; [exact H0 |].
  intros now final. rewrite H0. unfold restart_with_cooldown, RESTART_COOLDOWN_SEC.
  rewrite Z.sub_0_r. destruct (now <? 60)%Z; reflexivity.
Qed.

Lemma cooldown_counts_from_clock_zero_witness :
  last_restart_time nine_failures = 0%Z.
Proof.
  apply (cooldown_counts_from_clock_zero reference_tank reference_intervals None
           (map wifi_down [0; 5; 10; 15; 20; 25; 30; 35; 40]%Z) nine_failures).
  reflexivity.
Defined.




(** ** monitor_loop: spacing of the messages *)

Lemma inject_Z_split (a b c : Z) :
  inject_Z (a - c) == inject_Z (a - b) + inject_Z (b - c).
Proof.
  rewrite <- inject_Z_plus. replace (a - b + (b - c))%Z with (a - c)%Z by lia.
  reflexivity.
Qed.

Lemma publish_clocks_after_last cfg iv tank_profile (envs : list CycleEnv) :
  0 <= publish iv ->
  forall st t,
    In t (publish_clocks cfg iv tank_profile envs st) ->
    publish iv <= inject_Z (t - last_publish st).
Proof.
  intros Hgap. induction envs as [| env rest IH]; intros st t Hin.
  - contradiction.
  - simpl in Hin.
    pose proof (cycle_cases cfg iv tank_profile env st) as Hc.
    destruct (cycle cfg iv tank_profile env st) as [events res].
    destruct res as [st1 | |]; try contradiction.
    simpl in Hc.
    destruct Hc as [_ [(_ & _ & _ & Hlp & Hcount)
                      | (_ & _ & [[Hcount Hlp] | (Hcount & Hdue & Hlp)])]];
      rewrite Hcount in Hin; simpl in Hin.
    + rewrite <- Hlp. apply IH, Hin.
    + rewrite <- Hlp. apply IH, Hin.
    + unfold publish_due in Hdue. apply Qle_bool_iff in Hdue.
      destruct Hin as [<- | Hin]; [exact Hdue |].
      pose proof (IH st1 t Hin) as Hnext. rewrite Hlp in Hnext.
      rewrite (inject_Z_split t (clock env) (last_publish st)). lra.
Qed.

(** X14.  In every execution, whatever fails in it, two cycles in which
    a message reaches the broker have clocks at least the publish
    interval apart, and the first of them comes at least the publish
    interval after the initial [last_publish] (the interval being
    non-negative). *)
Theorem publishes_are_spaced
        cfg iv tank_profile (envs : list CycleEnv) (st : LoopState) :
  0 <= publish iv ->
  spaced (publish iv) (publish_clocks cfg iv tank_profile envs st)
  /\ forall t,
      In t (publish_clocks cfg iv tank_profile envs st) ->
      publish iv <= inject_Z (t - last_publish st).
Proof.
  intros Hgap. split; [| apply publish_clocks_after_last; exact Hgap].
  revert st. induction envs as [| env rest IH]; intros st.
  - constructor.
  - unfold spaced in *. simpl.
    pose proof (cycle_cases cfg iv tank_profile env st) as Hc.
    destruct (cycle cfg iv tank_profile env st) as [events res].
    destruct res as [st1 | |]; try constructor.
    simpl in Hc.
    destruct Hc as [_ [(_ & _ & _ & Hlp & Hcount)
                      | (_ & _ & [[Hcount Hlp] | (Hcount & Hdue & Hlp)])]];
      rewrite Hcount; simpl; try apply IH.
    constructor; [apply IH |].
    apply Forall_forall. intros t Hin.
    rewrite <- Hlp. apply (publish_clocks_after_last cfg iv tank_profile rest Hgap).
    exact Hin.
Qed.

Lemma publishes_are_spaced_witness :
  spaced 30 (publish_clocks reference_tank reference_intervals None
                            (steady_windows 1000 30 3) initial_state)
  /\ publish_clocks reference_tank reference_intervals None
                    (steady_windows 1000 30 3) initial_state
     = [30; 60; 90]%Z.
Proof.
  split; [| reflexivity].
  apply (publishes_are_spaced reference_tank reference_intervals None
           (steady_windows 1000 30 3) initial_state).
  vm_compute. discriminate.
Defined.

(** ** connect_wifi and check_wifi_connection *)

Lemma sleeps_are_fed_app (a b : list link_event) :
  sleeps_are_fed a = true -> sleeps_are_fed b = true ->
  sleeps_are_fed (a ++ b) = true.
Proof.
  intros Ha Hb. induction a as [| e a' IH]; [exact Hb |].
  destruct e; try (simpl in *; auto; fail).
  destruct a' as [| e' a'']; [discriminate |].
  destruct e'; try discriminate.
  simpl in Ha. apply andb_true_iff in Ha as [Hs Hrest].
  change (((seconds <=? 5)%Z && sleeps_are_fed ((LinkFeed :: a'') ++ b)) = true).
  rewrite Hs. apply IH. exact Hrest.
Qed.

Lemma slept_app (a b : list link_event) : slept (a ++ b) = (slept a + slept b)%Z.
Proof.
  induction a as [| e a' IH]; [reflexivity |].
  destruct e; simpl; rewrite ?IH; lia.
Qed.

Lemma connects_app (a b : list link_event) :
  connects (a ++ b) = (connects a + connects b)%nat.
Proof.
  induction a as [| e a' IH]; [reflexivity |].
  destruct e; simpl; rewrite ?IH; lia.
Qed.

Lemma wait_for_link_spec (link : nat -> bool) (timeout : nat) :
  forall calls,
    let (events, calls') := wait_for_link link calls timeout in
    sleeps_are_fed events = true
    /\ (0 <= slept events <= Z.of_nat timeout)%Z
    /\ connects events = 0%nat
    /\ (calls < calls')%nat.
Proof.
  induction timeout as [| t IH]; intros calls; cbn [wait_for_link].
  - destruct (link calls); cbn [sleeps_are_fed slept connects];
      repeat split; lia.
  - rewrite Nat2Z.inj_succ. destruct (link calls).
    + cbn [sleeps_are_fed slept connects]. repeat split; lia.
    + specialize (IH (S calls)).
      destruct (wait_for_link link (S calls) t) as [events calls'].
      destruct IH as (Hfed & Hslept & Hconn & Hcalls).
      cbn [sleeps_are_fed slept connects]. rewrite Hfed.
      repeat split; try assumption; lia.
Qed.

Lemma wait_for_link_down (link : nat -> bool) (timeout : nat) :
  forall calls,
    (forall k, (calls <= k)%nat -> link k = false) ->
    slept (fst (wait_for_link link calls timeout)) = Z.of_nat timeout
    /\ snd (wait_for_link link calls timeout) = (calls + S timeout)%nat.
Proof.
  induction timeout as [| t IH]; intros calls Hdown; cbn [wait_for_link].
  - rewrite Hdown by lia. cbn [fst snd slept]. split; lia.
  - rewrite Nat2Z.inj_succ. rewrite Hdown by lia.
    destruct (IH (S calls)) as [Hs Hc]; [intros k Hk; apply Hdown; lia |].
    destruct (wait_for_link link (S calls) t) as [events calls'].
    cbn [fst snd slept] in *. split; lia.
Qed.

Lemma connect_attempts_spec (link : nat -> bool) (retries : nat) :
  forall calls,
    let '(events, ok, calls') := connect_attempts link calls retries in
    sleeps_are_fed events = true
    /\ (0 <= slept events <= 35 * Z.of_nat retries)%Z
    /\ (connects events <= retries)%nat
    /\ (calls <= calls')%nat
    /\ ok = (Nat.ltb calls calls' && link (calls' - 1)%nat).
Proof.
  induction retries as [| more IH]; intros calls.
  - simpl. repeat split; try lia.
    rewrite Nat.ltb_irrefl. reflexivity.
  - cbn [connect_attempts].
    destruct (link calls) eqn:E.
    + repeat split; try (simpl; lia).
      replace (S calls - 1)%nat with calls by lia.
      rewrite E, (proj2 (Nat.ltb_lt calls (S calls))) by lia. reflexivity.
    + pose proof (wait_for_link_spec link 30 (S calls)) as Hw.
      destruct (wait_for_link link (S calls) 30) as [waiting calls1].
      destruct Hw as (Wfed & Wslept & Wconn & Wcalls).
      destruct (link calls1) eqn:E1.
      * split; [| split; [| split; [| split]]].
        -- change (sleeps_are_fed (waiting ++ [LinkPoll true; LinkFeed]) = true).
           apply sleeps_are_fed_app; [exact Wfed | reflexivity].
        -- change (0 <= slept (waiting ++ [LinkPoll true; LinkFeed])
                   <= 35 * Z.of_nat (S more))%Z.
           rewrite slept_app. simpl slept. lia.
        -- change (S (connects (waiting ++ [LinkPoll true; LinkFeed])) <= S more)%nat.
           rewrite connects_app, Wconn. simpl. lia.
        -- lia.
        -- replace (S calls1 - 1)%nat with calls1 by lia.
           rewrite E1, (proj2 (Nat.ltb_lt calls (S calls1))) by lia. reflexivity.
      * specialize (IH (S calls1)).
        destruct (connect_attempts link (S calls1) more) as [[later ok] calls2].
        destruct IH as (Lfed & Lslept & Lconn & Lcalls & Lok).
        split; [| split; [| split; [| split]]].
        -- change (sleeps_are_fed
                     (waiting ++ [LinkPoll false; LinkSleep 5; LinkFeed] ++ later)
                   = true).
           apply sleeps_are_fed_app; [exact Wfed |].
           simpl. exact Lfed.
        -- change (0 <= slept (waiting
                               ++ [LinkPoll false; LinkSleep 5; LinkFeed] ++ later)
                   <= 35 * Z.of_nat (S more))%Z.
           rewrite !slept_app. simpl slept. lia.
        -- change (S (connects (waiting
                                ++ [LinkPoll false; LinkSleep 5; LinkFeed] ++ later))
                   <= S more)%nat.
           rewrite !connects_app, Wconn. simpl. lia.
        -- lia.
        -- rewrite Lok.
           rewrite (proj2 (Nat.ltb_lt calls calls2)) by lia.
           destruct (Nat.eq_dec calls2 (S calls1)) as [-> | Hne].
           ++ rewrite Nat.ltb_irrefl.
              replace (S calls1 - 1)%nat with calls1 by lia.
              rewrite E1. reflexivity.
           ++ rewrite (proj2 (Nat.ltb_lt (S calls1) calls2)) by lia. reflexivity.
Qed.

Lemma connect_attempts_down (link : nat -> bool) (retries : nat) :
  forall calls,
    (forall k, (calls <= k)%nat -> link k = false) ->
    let '(events, ok, calls') := connect_attempts link calls retries in
    ok = false
    /\ slept events = (35 * Z.of_nat retries)%Z
    /\ connects events = retries
    /\ calls' = (calls + 33 * retries)%nat.
Proof.
  induction retries as [| more IH]; intros calls Hdown.
  - simpl. repeat split; lia.
  - cbn [connect_attempts]. rewrite Hdown by lia.
    destruct (wait_for_link_down link 30 (S calls)) as [Ws Wc];
      [intros k Hk; apply Hdown; lia |].
    pose proof (wait_for_link_spec link 30 (S calls)) as Hw.
    destruct (wait_for_link link (S calls) 30) as [waiting calls1].
    destruct Hw as (_ & _ & Wconn & _).
    simpl in Ws, Wc. rewrite Hdown by lia.
    specialize (IH (S calls1)).
    destruct (connect_attempts link (S calls1) more) as [[later ok] calls2].
    destruct IH as (Lok & Ls & Lc & Lcalls); [intros k Hk; apply Hdown; lia |].
    split; [exact Lok |]. split; [| split].
    + change (slept (waiting ++ [LinkPoll false; LinkSleep 5; LinkFeed] ++ later)
              = 35 * Z.of_nat (S more))%Z.
      rewrite !slept_app. simpl slept. lia.
    + change (S (connects (waiting
                           ++ [LinkPoll false; LinkSleep 5; LinkFeed] ++ later))
              = S more).
      rewrite !connects_app, Wconn, Lc. simpl. lia.
    + lia.
Qed.

(** X15.  In [connect_wifi] every call of [time.sleep] lasts at most
    five seconds and is followed at once by a feed of the watchdog,
    whatever the link does and however many retries are asked for. *)
Theorem connect_wifi_feeds_after_every_sleep
        (link : nat -> bool) (calls max_retries : nat) :
  sleeps_are_fed (fst (fst (connect_wifi link calls max_retries))) = true.
Proof.
  unfold connect_wifi.
  pose proof (connect_attempts_spec link max_retries calls) as H.
  destruct (connect_attempts link calls max_retries) as [[events ok] calls'].
  destruct H as (Hfed & _). simpl. exact Hfed.
Qed.

(** X16.  [connect_wifi] calls [self.wifi.connect] at most
    [max_retries] times and sleeps at most 35 seconds per retry; when
    the link never comes up it returns [False] after exactly
    [max_retries] connects, 35 seconds of sleep per retry and 33 polls
    of the link per retry. *)
Theorem connect_wifi_is_bounded (link : nat -> bool) (calls max_retries : nat) :
  let '(events, ok, calls') := connect_wifi link calls max_retries in
  (0 <= slept events <= 35 * Z.of_nat max_retries)%Z
  /\ (connects events <= max_retries)%nat
  /\ ((forall k, (calls <= k)%nat -> link k = false) ->
      ok = false
      /\ slept events = (35 * Z.of_nat max_retries)%Z
      /\ connects events = max_retries
      /\ calls' = (calls + 33 * max_retries)%nat).
Proof.
  unfold connect_wifi.
  pose proof (connect_attempts_spec link max_retries calls) as H.
  pose proof (connect_attempts_down link max_retries calls) as D.
  destruct (connect_attempts link calls max_retries) as [[events ok] calls'].
  destruct H as (_ & Hslept & Hconn & _).
  split; [exact Hslept |]. split; [exact Hconn |].
  intros Hdown. exact (D Hdown).
Qed.

Lemma connect_wifi_is_bounded_witness :
  connect_wifi always_down 0 3
  = (fst (fst (connect_wifi always_down 0 3)), false, 99%nat)
  /\ slept (fst (fst (connect_wifi always_down 0 3))) = 105%Z.
Proof.
  pose proof (connect_wifi_is_bounded always_down 0 3) as H.
  destruct (connect_wifi always_down 0 3) as [[events ok] calls'].
  destruct H as (_ & _ & H).
  destruct H as (-> & Hs & _ & ->); [intros k _; reflexivity |].
  split; [reflexivity | exact Hs].
Defined.

(** X17.  [connect_wifi] returns [True] exactly when it polled the link
    at least once and the last poll answered that the link is up; with
    no retries it returns [False] without a poll. *)
Theorem connect_wifi_returns_last_poll
        (link : nat -> bool) (calls max_retries : nat) :
  let '(events, ok, calls') := connect_wifi link calls max_retries in
  (calls <= calls')%nat
  /\ ok = (Nat.ltb calls calls' && link (calls' - 1)%nat)
  /\ (max_retries = 0%nat -> calls' = calls).
Proof.
  unfold connect_wifi.
  pose proof (connect_attempts_spec link max_retries calls) as H.
  destruct (connect_attempts link calls max_retries) as [[events ok] calls'] eqn:E.
  destruct H as (_ & _ & _ & Hcalls & Hok).
  repeat split; try assumption.
  intros ->. simpl in E. inversion E. reflexivity.
Qed.

Lemma connect_wifi_returns_last_poll_witness :
  snd (connect_wifi always_up 7 0) = 7%nat
  /\ snd (fst (connect_wifi always_up 7 0)) = false.
Proof.
  pose proof (connect_wifi_returns_last_poll always_up 7 0) as H.
  destruct (connect_wifi always_up 7 0) as [[events ok] calls'].
  destruct H as (_ & Hok & Hcalls). specialize (Hcalls eq_refl). subst calls'.
  split; [reflexivity | rewrite Hok; reflexivity].
Defined.

Lemma check_wifi_connection_spec (interval : Q) (now last : Z)
      (link : nat -> bool) (calls : nat) (mqtt_ok : bool) :
  let r := check_wifi_connection interval now last link calls mqtt_ok in
  sleeps_are_fed (check_events r) = true
  /\ (0 <= slept (check_events r) <= 70)%Z
  /\ (connects (check_events r) <= 2)%nat
  /\ (check_ok r = false -> check_last r = now).
Proof.
  unfold check_wifi_connection.
  destruct (Qlt_bool (inject_Z (now - last)) interval).
  { simpl. repeat split; try lia; try discriminate. }
  destruct (link calls).
  { simpl. repeat split; try lia; try discriminate. }
  unfold connect_wifi.
  pose proof (connect_attempts_spec link 2 (S calls)) as H.
  destruct (connect_attempts link (S calls) 2) as [[events ok] calls'].
  destruct H as (Hfed & Hslept & Hconn & _).
  destruct ok; cbn [check_events check_ok check_last].
  - split; [| split; [| split]].
    + change (sleeps_are_fed (events ++ [LinkInitMqtt mqtt_ok]) = true).
      apply sleeps_are_fed_app; [exact Hfed | reflexivity].
    + change (0 <= slept (events ++ [LinkInitMqtt mqtt_ok]) <= 70)%Z.
      rewrite slept_app. simpl slept. lia.
    + change (connects (events ++ [LinkInitMqtt mqtt_ok]) <= 2)%nat.
      rewrite connects_app. simpl. lia.
    + discriminate.
  - split; [exact Hfed |]. split; [| split].
    + change (0 <= slept events <= 70)%Z. lia.
    + exact Hconn.
    + reflexivity.
Qed.

(** X18.  A call of [check_wifi_connection] feeds the watchdog at once
    after every sleep, sleeps at most 70 seconds and connects at most
    twice; the value it returns does not depend on whether [init_mqtt()]
    succeeds after a reconnect. *)
Theorem check_wifi_connection_is_bounded
        (interval : Q) (now last : Z) (link : nat -> bool) (calls : nat)
        (mqtt_ok : bool) :
  let r := check_wifi_connection interval now last link calls mqtt_ok in
  sleeps_are_fed (check_events r) = true
  /\ (0 <= slept (check_events r) <= 70)%Z
  /\ (connects (check_events r) <= 2)%nat
  /\ check_ok r
     = check_ok (check_wifi_connection interval now last link calls (negb mqtt_ok)).
Proof.
  destruct (check_wifi_connection_spec interval now last link calls mqtt_ok)
    as (Hfed & Hslept & Hconn & _).
  cbv zeta. split; [exact Hfed |]. split; [exact Hslept |].
  split; [exact Hconn |].
  unfold check_wifi_connection.
  destruct (Qlt_bool (inject_Z (now - last)) interval); [reflexivity |].
  destruct (link calls); [reflexivity |].
  destruct (connect_wifi link (S calls) 2) as [[events ok] calls'].
  destruct ok; reflexivity.
Qed.

(** X19.  After a call of [check_wifi_connection] that returned
    [False], a call made before the check interval has elapsed returns
    [True] without polling the link and without any other action,
    whatever the state of the link. *)
Theorem failed_check_is_followed_by_unchecked_success
        (interval : Q) (now last : Z) (link : nat -> bool) (calls : nat)
        (mqtt_ok : bool) (later : Z) (link' : nat -> bool) (mqtt_ok' : bool) :
  let r := check_wifi_connection interval now last link calls mqtt_ok in
  check_ok r = false ->
  inject_Z (later - now) < interval ->
  check_wifi_connection interval later (check_last r) link' (check_calls r) mqtt_ok'
  = mkCheck [] true now (check_calls r).
Proof.
  intros r Hfail Hsoon.
  destruct (check_wifi_connection_spec interval now last link calls mqtt_ok)
    as (_ & _ & _ & Hlast).
  fold r in Hlast. rewrite (Hlast Hfail).
  unfold check_wifi_connection at 1.
  rewrite (proj2 (Qlt_bool_iff _ _) Hsoon). reflexivity.
Qed.

Lemma failed_check_is_followed_by_unchecked_success_witness :
  check_wifi_connection 300 380 300 always_down 67 true
  = mkCheck [] true 300 67.
Proof.
  apply (failed_check_is_followed_by_unchecked_success
           300 300 0 always_down 0 true 380 always_down true).
  - reflexivity.
  - reflexivity.
Defined.

(** ** get_alerts *)

(** X20.  The alerts of a reading: "low_level" is raised exactly below
    the low threshold, "high_level" exactly above the high one, "empty"
    exactly at a level of zero or less, "full" exactly from one inch
    below the tank height; when the low threshold is not above the high
    one, low and high never come together, and when the tank is more
    than one inch high, empty and full never come together. *)
Theorem alerts_are_consistent
        (reading : Reading) (thresholds : Thresholds) (tank_height : Q) :
  let alerts := get_alerts reading thresholds tank_height in
  (has_alert low_level_alert alerts
   = Qlt_bool (level_percentage reading) (low_level thresholds))
  /\ (has_alert high_level_alert alerts
      = Qlt_bool (high_level thresholds) (level_percentage reading))
  /\ (has_alert empty_alert alerts = Qle_bool (level_inches reading) 0)
  /\ (has_alert full_alert alerts
      = Qle_bool (tank_height - 1) (level_inches reading))
  /\ (low_level thresholds <= high_level thresholds ->
      has_alert low_level_alert alerts && has_alert high_level_alert alerts = false)
  /\ (1 < tank_height ->
      has_alert empty_alert alerts && has_alert full_alert alerts = false).
Proof.
  unfold get_alerts. cbv zeta.
  destruct (Qlt_bool (level_percentage reading) (low_level thresholds)) eqn:L;
    destruct (Qlt_bool (high_level thresholds) (level_percentage reading)) eqn:H;
    destruct (Qle_bool (level_inches reading) 0) eqn:E;
    destruct (Qle_bool (tank_height - 1) (level_inches reading)) eqn:F;
    simpl; repeat split; try reflexivity;
    try (apply Qlt_bool_iff in L; apply Qlt_bool_iff in H; lra);
    try (apply Qle_bool_iff in E; apply Qle_bool_iff in F; lra).
Qed.

Lemma alerts_are_consistent_witness :
  get_alerts (mkReading 1000.0 39.37 4.63 10.5 30 None) default_thresholds 44 = []
  /\ has_alert low_level_alert
       (get_alerts (mkReading 1000.0 39.37 4.63 10.5 30 None) default_thresholds 44)
     && has_alert high_level_alert
          (get_alerts (mkReading 1000.0 39.37 4.63 10.5 30 None) default_thresholds 44)
     = false.
Proof.
  split; [reflexivity |].
  destruct (alerts_are_consistent (mkReading 1000.0 39.37 4.63 10.5 30 None)
              default_thresholds 44) as (_ & _ & _ & _ & Hlow_high & _).
  apply Hlow_high. vm_compute. discriminate.
Defined.

(** ** calibrate_empty followed by read_tank_level *)





(** ** config_manager.py: dictionaries, calibration offset, passwords *)

Section Dictionaries.

Context {A : Type}.

Lemma dict_get_set_same (d : ConfigManager.dict A) (k : String.string) (v : A) :
  ConfigManager.dict_get (ConfigManager.dict_set d k v) k = Some v.
Proof.
  induction d as [| [k' v'] rest IH]; simpl.
  - rewrite String.eqb_refl. reflexivity.
  - destruct (String.eqb k' k) eqn:E; simpl.
    + rewrite String.eqb_refl. reflexivity.
    + rewrite E. exact IH.
Qed.

Lemma dict_get_set_other (d : ConfigManager.dict A) (k k' : String.string) (v : A) :
  k' <> k ->
  ConfigManager.dict_get (ConfigManager.dict_set d k v) k'
  = ConfigManager.dict_get d k'.
Proof.
  intros Hne. induction d as [| [k0 v0] rest IH]; simpl.
  - rewrite (proj2 (String.eqb_neq k k')); [reflexivity | congruence].
  - destruct (String.eqb k0 k) eqn:E; simpl.
    + apply String.eqb_eq in E. subst k0.
      rewrite (proj2 (String.eqb_neq k k')); [reflexivity | congruence].
    + destruct (String.eqb k0 k'); [reflexivity | exact IH].
Qed.

Lemma dict_set_not_empty (d : ConfigManager.dict A) (k : String.string) (v : A) :
  ConfigManager.dict_set d k v <> [].
Proof.
  destruct d as [| [k' v'] rest]; simpl; [discriminate |].
  destruct (String.eqb k' k); discriminate.
Qed.

End Dictionaries.

Section ConfigProperties.

Import Ascii String.




Lemma xor_ascii_involutive (a k : ascii) :
  ConfigManager.xor_ascii (ConfigManager.xor_ascii a k) k = a.
Proof.
  destruct a as [a0 a1 a2 a3 a4 a5 a6 a7].
  destruct k as [k0 k1 k2 k3 k4 k5 k6 k7].
  simpl. rewrite !xorb_assoc, !xorb_nilpotent, !xorb_false_r. reflexivity.
Qed.

Lemma xor_stream_involutive (key : list ascii) (data : list ascii) :
  forall i,
    ConfigManager.xor_stream key i (ConfigManager.xor_stream key i data) = data.
Proof.
  induction data as [| c rest IH]; intros i; simpl.
  - reflexivity.
  - rewrite xor_ascii_involutive, IH. reflexivity.
Qed.

Lemma tagged_text (text : string) :
  String.prefix ConfigManager.prefix_tag (ConfigManager.prefix_tag ++ text) = true
  /\ ConfigManager.drop 8 (ConfigManager.prefix_tag ++ text) = text
  /\ ConfigManager.truthy (ConfigManager.VStr (ConfigManager.prefix_tag ++ text))
     = true.
Proof.
  split; [| split; reflexivity].
  destruct text; reflexivity.
Qed.

Section Codec.

(** The two functions of [ubinascii], and the law that decoding undoes
    encoding. *)
Variable b64encode : list ascii -> string.
Variable b64decode : string -> option (list ascii).
Hypothesis decode_encode : forall bytes, b64decode (b64encode bytes) = Some bytes.

Lemma encrypt_then_decrypt (key password : string) :
  key <> EmptyString ->
  exists encrypted,
    ConfigManager.encrypt_password b64encode (Some key) password
    = ConfigManager.Ret encrypted
    /\ ConfigManager.decrypt_password b64decode (Some key)
         (ConfigManager.VStr encrypted)
       = ConfigManager.Ret password
    /\ (password = EmptyString -> encrypted = EmptyString)
    /\ (password <> EmptyString ->
        String.prefix ConfigManager.prefix_tag encrypted = true).
Proof.
  intros Hkey.
  destruct password as [| c rest].
  - exists EmptyString. repeat split. intros H. contradiction.
  - destruct key as [| k krest]; [contradiction |].
    eexists. split; [reflexivity |].
    set (bytes := ConfigManager.xor_stream
                    (list_ascii_of_string (String k krest)) 0
                    (list_ascii_of_string (String c rest))).
    destruct (tagged_text (b64encode bytes)) as (Hp & Hd & Ht).
    split; [| split; [discriminate | intros _; exact Hp]].
    unfold ConfigManager.decrypt_password.
    rewrite Ht, Hp, Hd, decode_encode. cbn [negb].
    assert (Hb : bytes = ConfigManager.xor_ascii c
                           (nth (0 mod List.length (list_ascii_of_string (String k krest)))
                                (list_ascii_of_string (String k krest)) Ascii.zero)
                         :: ConfigManager.xor_stream
                              (list_ascii_of_string (String k krest)) 1
                              (list_ascii_of_string rest))
      by reflexivity.
    rewrite Hb. rewrite <- Hb.
    unfold bytes. rewrite xor_stream_involutive.
    rewrite string_of_list_ascii_of_string. reflexivity.
Qed.

(** X23.  With the MAC address of the device at hand, decrypting an
    encrypted password gives the password back, for every password of
    byte characters: the empty password is stored as the empty string,
    every other one as a text that starts with "mac_xor:". *)
Theorem password_round_trip (key password : string) :
  key <> EmptyString ->
  exists encrypted,
    ConfigManager.encrypt_password b64encode (Some key) password
    = ConfigManager.Ret encrypted
    /\ ConfigManager.decrypt_password b64decode (Some key)
         (ConfigManager.VStr encrypted)
       = ConfigManager.Ret password
    /\ (password = EmptyString -> encrypted = EmptyString)
    /\ (password <> EmptyString ->
        String.prefix ConfigManager.prefix_tag encrypted = true).
Proof. apply encrypt_then_decrypt. Qed.

End Codec.

Lemma plain_codec (bytes : list ascii) :
  ConfigManager.plain_decode (ConfigManager.plain_encode bytes) = Some bytes.
Proof.
  unfold ConfigManager.plain_decode, ConfigManager.plain_encode.
  rewrite list_ascii_of_string_of_list_ascii. reflexivity.
Qed.

Lemma password_round_trip_witness :
  exists encrypted,
    ConfigManager.encrypt_password ConfigManager.plain_encode
                                   (Some "a0b1c2d3e4f5"%string) "hunter2"%string
    = ConfigManager.Ret encrypted
    /\ ConfigManager.decrypt_password ConfigManager.plain_decode
         (Some "a0b1c2d3e4f5"%string) (ConfigManager.VStr encrypted)
       = ConfigManager.Ret "hunter2"%string
    /\ ("hunter2"%string = EmptyString -> encrypted = EmptyString)
    /\ ("hunter2"%string <> EmptyString ->
        String.prefix ConfigManager.prefix_tag encrypted = true).
Proof.
  apply (password_round_trip ConfigManager.plain_encode ConfigManager.plain_decode
           plain_codec "a0b1c2d3e4f5"%string "hunter2"%string).
  discriminate.
Defined.

Section Migration.

Variable b64encode : list ascii -> string.
Variable b64decode : string -> option (list ascii).
Hypothesis decode_encode : forall bytes, b64decode (b64encode bytes) = Some bytes.

Variable key : string.
Hypothesis key_not_empty : key <> EmptyString.

Lemma migrate_section_settled (cfg : ConfigManager.config) (sec : string)
      (fields : ConfigManager.section) (p : string) :
  ConfigManager.dict_get cfg sec = Some fields ->
  ConfigManager.dict_get fields "password" = Some (ConfigManager.VStr p) ->
  ConfigManager.settled p ->
  ConfigManager.migrate_section b64encode (Some key) sec cfg
  = ConfigManager.Ret (cfg, false).
Proof.
  intros Hsec Hp Hs. unfold ConfigManager.migrate_section.
  rewrite Hsec, Hp. destruct Hs as [-> | Hs]; [reflexivity |].
  destruct p as [| c rest]; [reflexivity |].
  cbn [ConfigManager.truthy String.eqb negb]. rewrite Hs. reflexivity.
Qed.

(** What one block of the migration does to a section whose password
    is a string. *)
Lemma migrate_section_string (cfg : ConfigManager.config) (sec : string)
      (fields : ConfigManager.section) (p : string) :
  ConfigManager.dict_get cfg sec = Some fields ->
  ConfigManager.dict_get fields "password" = Some (ConfigManager.VStr p) ->
  exists cfg' changed fields' p',
    ConfigManager.migrate_section b64encode (Some key) sec cfg
    = ConfigManager.Ret (cfg', changed)
    /\ ConfigManager.dict_get cfg' sec = Some fields'
    /\ ConfigManager.dict_get fields' "password" = Some (ConfigManager.VStr p')
    /\ ConfigManager.settled p'
    /\ (forall sec', sec' <> sec ->
        ConfigManager.dict_get cfg' sec' = ConfigManager.dict_get cfg sec')
    /\ (forall k, k <> "password"%string ->
        ConfigManager.dict_get fields' k = ConfigManager.dict_get fields k)
    /\ (cfg' <> [])
    /\ (ConfigManager.settled p -> cfg' = cfg /\ changed = false)
    /\ (~ ConfigManager.settled p ->
        changed = true
        /\ ConfigManager.decrypt_password b64decode (Some key)
             (ConfigManager.VStr p')
           = ConfigManager.Ret p).
Proof.
  intros Hsec Hp.
  assert (Hcfg : cfg <> []) by (intros ->; discriminate).
  destruct p as [| c rest] eqn:Ep.
  - exists cfg, false, fields, EmptyString.
    rewrite (migrate_section_settled cfg sec fields EmptyString Hsec Hp)
      by (left; reflexivity).
    split; [reflexivity |]. split; [exact Hsec |]. split; [exact Hp |].
    split; [left; reflexivity |]. split; [auto |]. split; [auto |].
    split; [exact Hcfg |].
    split; [intros _; split; reflexivity |].
    intros Hns. exfalso. apply Hns. left. reflexivity.
  - rewrite <- Ep in *.
    destruct (String.prefix ConfigManager.prefix_tag p) eqn:Etag.
    + exists cfg, false, fields, p.
      rewrite (migrate_section_settled cfg sec fields p Hsec Hp)
        by (right; exact Etag).
      split; [reflexivity |]. split; [exact Hsec |]. split; [exact Hp |].
      split; [right; exact Etag |]. split; [auto |]. split; [auto |].
      split; [exact Hcfg |].
      split; [intros _; split; reflexivity |].
      intros Hns. exfalso. apply Hns. right. exact Etag.
    + destruct (encrypt_then_decrypt b64encode b64decode decode_encode key p
                  key_not_empty) as (enc & Henc & Hdec & _ & Htag).
      assert (Hne : p <> EmptyString) by (rewrite Ep; discriminate).
      exists (ConfigManager.dict_set cfg sec
                (ConfigManager.dict_set fields "password" (ConfigManager.VStr enc))),
             true,
             (ConfigManager.dict_set fields "password" (ConfigManager.VStr enc)),
             enc.
      split; [| split; [| split; [| split; [| split; [| split; [| split; [| split]]]]]]].
      * unfold ConfigManager.migrate_section. rewrite Hsec, Hp.
        assert (Ht : ConfigManager.truthy (ConfigManager.VStr p) = true)
          by (rewrite Ep; reflexivity).
        rewrite Ht, Etag, Henc. reflexivity.
      * apply dict_get_set_same.
      * apply dict_get_set_same.
      * right. apply Htag. exact Hne.
      * intros sec' Hsec'. apply dict_get_set_other. exact Hsec'.
      * intros k Hk. apply dict_get_set_other. exact Hk.
      * apply dict_set_not_empty.
      * intros [Hs | Hs]; [contradiction | congruence].
      * intros _. split; [reflexivity | exact Hdec].
Qed.

(** X24.  Migration of plaintext passwords, for a configuration whose
    WiFi and MQTT passwords are strings: afterwards [get_wifi_config]
    returns the SSID and the WiFi password that were in the file
    (decrypted, if the password had to be encrypted), also when writing
    the file failed; the file is written only if a password was
    changed; and a second migration changes nothing and writes
    nothing. *)
Theorem migration_keeps_passwords
        (m : ConfigManager.Manager) (save_ok : bool)
        (wifi mqtt : ConfigManager.section) (p1 p2 : string) :
  ConfigManager.device_mac m = Some key ->
  ConfigManager.dict_get (ConfigManager.loaded_config m) "wifi" = Some wifi ->
  ConfigManager.dict_get wifi "password" = Some (ConfigManager.VStr p1) ->
  ConfigManager.dict_get (ConfigManager.loaded_config m) "mqtt" = Some mqtt ->
  ConfigManager.dict_get mqtt "password" = Some (ConfigManager.VStr p2) ->
  let (result, m') :=
    ConfigManager.migrate_plaintext_passwords b64encode save_ok m in
  (~ ConfigManager.settled p1 ->
   ConfigManager.get_wifi_config b64decode m'
   = ConfigManager.Ret
       (match ConfigManager.dict_get wifi "ssid" with
        | Some ssid => ssid
        | None => ConfigManager.VNull
        end, p1))
  /\ (ConfigManager.settled p1 -> ConfigManager.settled p2 -> result = ConfigManager.Ret tt /\ m' = m)
  /\ (forall save_ok',
        ConfigManager.migrate_plaintext_passwords b64encode save_ok' m'
        = (ConfigManager.Ret tt, m')).
Proof.
  intros Hmac Hwifi Hp1 Hmqtt Hp2.
  destruct m as [cfg file mac]. simpl in Hmac, Hwifi, Hmqtt. subst mac.
  unfold ConfigManager.migrate_plaintext_passwords.
  cbn [ConfigManager.loaded_config ConfigManager.device_mac ConfigManager.file_config].
  destruct (migrate_section_string cfg "wifi" wifi p1 Hwifi Hp1)
    as (cfg1 & ch1 & wifi1 & q1 & M1 & W1 & Wp1 & Ws1 & Wother1 & Wkeys1 & Wne1
        & Wsame1 & Wdec1).
  rewrite M1.
  assert (Hmqtt1 : ConfigManager.dict_get cfg1 "mqtt" = Some mqtt)
    by (rewrite Wother1 by discriminate; exact Hmqtt).
  destruct (migrate_section_string cfg1 "mqtt" mqtt p2 Hmqtt1 Hp2)
    as (cfg2 & ch2 & mqtt2 & q2 & M2 & Q2 & Qp2 & Qs2 & Qother2 & Qkeys2 & Qne2
        & Qsame2 & Qdec2).
  rewrite M2.
  assert (W2 : ConfigManager.dict_get cfg2 "wifi" = Some wifi1)
    by (rewrite Qother2 by discriminate; exact W1).
  (* a second migration finds both passwords settled *)
  assert (Hagain : forall file' save_ok',
             ConfigManager.migrate_plaintext_passwords b64encode save_ok'
               (ConfigManager.mkManager cfg2 file' (Some key))
             = (ConfigManager.Ret tt, ConfigManager.mkManager cfg2 file' (Some key))).
  { intros file' save_ok'. unfold ConfigManager.migrate_plaintext_passwords.
    cbn [ConfigManager.loaded_config ConfigManager.device_mac
         ConfigManager.file_config].
    rewrite (migrate_section_settled cfg2 "wifi" wifi1 q1 W2 Wp1 Ws1).
    rewrite (migrate_section_settled cfg2 "mqtt" mqtt2 q2 Q2 Qp2 Qs2).
    reflexivity. }
  (* the WiFi settings read after the migration *)
  assert (Hread : ~ ConfigManager.settled p1 ->
                  ConfigManager.get_wifi_config b64decode
                    (ConfigManager.mkManager cfg2 file (Some key))
                  = ConfigManager.get_wifi_config b64decode
                      (ConfigManager.mkManager cfg2 cfg2 (Some key))
                    /\ ConfigManager.get_wifi_config b64decode
                         (ConfigManager.mkManager cfg2 file (Some key))
                       = ConfigManager.Ret
                           (match ConfigManager.dict_get wifi "ssid" with
                            | Some ssid => ssid
                            | None => ConfigManager.VNull
                            end, p1)).
  { intros Hns. split; [reflexivity |].
    destruct (Wdec1 Hns) as [_ Hdec].
    unfold ConfigManager.get_wifi_config, ConfigManager.get.
    cbn [ConfigManager.loaded_config ConfigManager.device_mac].
    destruct cfg2 as [| entry rest] eqn:E2; [contradiction |].
    rewrite <- E2 in *. rewrite W2, Wp1.
    rewrite (Wkeys1 "ssid"%string) by discriminate.
    rewrite Hdec. reflexivity. }
  destruct (ch1 || ch2) eqn:Ech.
  - unfold ConfigManager.save_config.
    cbn [ConfigManager.loaded_config ConfigManager.device_mac
         ConfigManager.file_config].
    destruct save_ok.
    + split; [| split].
      * intros Hns. destruct (Hread Hns) as [Heq Hval]. rewrite <- Heq. exact Hval.
      * intros Hs1 Hs2. destruct (Wsame1 Hs1) as [_ ->].
        destruct (Qsame2 Hs2) as [_ ->]. discriminate.
      * intros save_ok'. apply Hagain.
    + split; [| split].
      * intros Hns. apply (Hread Hns).
      * intros Hs1 Hs2. destruct (Wsame1 Hs1) as [_ ->].
        destruct (Qsame2 Hs2) as [_ ->]. discriminate.
      * intros save_ok'. apply Hagain.
  - split; [| split].
    + intros Hns. apply (Hread Hns).
    + intros Hs1 Hs2. destruct (Wsame1 Hs1) as [-> _].
      destruct (Qsame2 Hs2) as [-> _]. split; reflexivity.
    + intros save_ok'. apply Hagain.
Qed.

End Migration.

Lemma migration_keeps_passwords_witness :
  ConfigManager.get_wifi_config ConfigManager.plain_decode
    (snd (ConfigManager.migrate_plaintext_passwords
            ConfigManager.plain_encode false ConfigManager.sample_manager))
  = ConfigManager.Ret (ConfigManager.VStr "cellar", "hunter2"%string).
Proof.
  pose proof (migration_keeps_passwords
                ConfigManager.plain_encode ConfigManager.plain_decode plain_codec
                "a0b1c2d3e4f5"%string ltac:(discriminate)
                ConfigManager.sample_manager false
                [("ssid", ConfigManager.VStr "cellar");
                 ("password", ConfigManager.VStr "hunter2")]%string
                [("broker", ConfigManager.VStr "broker.lan");
                 ("username", ConfigManager.VStr "tank");
                 ("password", ConfigManager.VStr "mac_xor:abcd")]%string
                "hunter2"%string "mac_xor:abcd"%string
                eq_refl eq_refl eq_refl eq_refl eq_refl) as H.
  destruct (ConfigManager.migrate_plaintext_passwords
              ConfigManager.plain_encode false ConfigManager.sample_manager)
    as [result m'].
  destruct H as [H _]. apply H.
  intros [Hs | Hs]; discriminate.
Defined.

End ConfigProperties.

(** ** main.py: safe_main and the start of main_application *)







(** ** The constructor of TankLevelMonitor under main_application *)

Lemma on_hardware_app (wdt : bool) (a b : list link_event) :
  on_hardware wdt (a ++ b) = on_hardware wdt a ++ on_hardware wdt b.
Proof.
  induction a as [| e a' IH]; [reflexivity |].
  destruct e; cbn [on_hardware app]; rewrite ?IH, ?app_assoc; reflexivity.
Qed.





